(** * The HTMX blog (products/htmx-blog/app.py): model and verified properties

    The Flask application is embedded as pure functions over an explicit
    store state.  Python [str] values are sequences of Unicode code points,
    the posts table is the list of its rows in rowid order, a request handler
    takes the store and the clock reading and returns the new store together
    with either the response it built or the exception it raised.

    Outside app.py, and taken as parameters: the Jinja templates and
    [markdown.markdown], as total functions (an exception raised inside
    them is not modelled).  The storage engine is modelled at the level of the
    five SQL statements that app.py issues, with the one constraint of the
    schema (NOT NULL).  The statements are modelled for an id parameter
    that sqlite3 has bound; the binding itself, which refuses an integer
    outside the signed 64-bit range, is [Sqlite3.fits_int64], and [serve]
    is a request handled with it. *)

From Stdlib Require Import ZArith NArith Ascii String Lia.
From stdpp Require Import base option list gmap sorting.

Local Open Scope Z_scope.

(** ** Python strings *)

(** A Python [str] is a sequence of Unicode code points. *)
Abbreviation str := (list N).

(** A source-code string literal (all literals of app.py are ASCII). *)
Fixpoint lit (s : string) : str :=
  match s with
  | EmptyString => []
  | String a s' => N_of_ascii a :: lit s'
  end.

Module PyStr.

(** [str.isspace] on one code point: the white-space test that [str.strip]
    and [str.split] without arguments use. *)
Definition isspace (c : N) : bool :=
  (((0x09 <=? c) && (c <=? 0x0D)) || ((0x1C <=? c) && (c <=? 0x20))
   || (c =? 0x85) || (c =? 0xA0) || (c =? 0x1680)
   || ((0x2000 <=? c) && (c <=? 0x200A))
   || (c =? 0x2028) || (c =? 0x2029) || (c =? 0x202F)
   || (c =? 0x205F) || (c =? 0x3000))%N.

(** [s.lstrip()], [s.rstrip()] and [s.strip()]. *)
Fixpoint lstrip (s : str) : str :=
  match s with
  | [] => []
  | c :: s' => if isspace c then lstrip s' else s
  end.

Definition rstrip (s : str) : str := rev (lstrip (rev s)).

Definition strip (s : str) : str := rstrip (lstrip s).

(** [s.split()]: the maximal runs of non-white-space characters, in order;
    no empty string is ever produced. *)
Fixpoint split (s : str) : list str :=
  match s with
  | [] => []
  | c :: s' =>
      if isspace c then split s'
      else match s' with
           | [] => [[c]]
           | d :: _ =>
               if isspace d then [c] :: split s'
               else match split s' with
                    | w :: ws => (c :: w) :: ws
                    | [] => [[c]]
                    end
           end
  end.

(** [sep.join(parts)]. *)
Fixpoint join (sep : str) (parts : list str) : str :=
  match parts with
  | [] => []
  | w :: ws =>
      match ws with
      | [] => w
      | _ :: _ => w ++ sep ++ join sep ws
      end
  end.

(** [s.replace(old, new)] for a one-character [old]. *)
Fixpoint replace (old : N) (new : str) (s : str) : str :=
  match s with
  | [] => []
  | c :: s' => (if (c =? old)%N then new else [c]) ++ replace old new s'
  end.

(** [len(s)]. *)
Definition len (s : str) : Z := Z.of_nat (length s).

(** The slice [s[:n]]: a negative bound counts from the end, and both
    ends are clamped to the string. *)
Definition slice_to (s : str) (n : Z) : str :=
  take (Z.to_nat (if n <? 0 then Z.max 0 (n + len s) else Z.min n (len s))) s.

(** Whether the first character of [s] is white space. *)
Definition starts_with_space (s : str) : bool :=
  match s with
  | [] => false
  | c :: _ => isspace c
  end.

(** Truth value of a string: [not s] holds exactly for the empty one. *)
Definition is_empty (s : str) : bool :=
  match s with [] => true | _ :: _ => false end.

End PyStr.

(** ** Pure helpers of app.py *)

(** The double-quote character, for the literals that contain it. *)
Definition dq : str := [0x22%N].

(** [flash_message(message, category="success")]. *)
Definition flash_message (message category : str) : str :=
  (lit "<div id=" ++ dq ++ lit "flash-messages" ++ dq
     ++ lit " hx-swap-oob=" ++ dq ++ lit "innerHTML" ++ dq ++ lit ">")
  ++ (lit "<div class=" ++ dq ++ lit "flash flash-" ++ category ++ dq
        ++ lit ">" ++ message ++ lit "</div>")
  ++ lit "</div>".

(** [get_post_preview(body, max_length=200)]. *)
Definition get_post_preview (body : str) (max_length : Z) : str :=
  let plain :=
    PyStr.replace 0x3E [] (PyStr.replace 0x60 []
      (PyStr.replace 0x2A [] (PyStr.replace 0x23 [] body))) in
  let plain := PyStr.join (lit " ") (PyStr.split plain) in
  if PyStr.len plain >? max_length
  then PyStr.slice_to plain max_length ++ lit "..."
  else plain.

(** ** The posts table *)

(** Exceptions a handler can let escape. *)
Inductive Exn : Type :=
  | TypeError       (* subscripting [None] *)
  | IntegrityError  (* NOT NULL constraint failed *)
  | OverflowError.  (* an int parameter too large for an SQLite INTEGER *)

(** A computation that returns a value or raises. *)
Inductive result (A : Type) : Type :=
  | Ok (a : A)
  | Raise (e : Exn).
Arguments Ok {A} a.
Arguments Raise {A} e.

#[global] Instance result_ret : MRet result := @Ok.
#[global] Instance result_bind : MBind result :=
  fun A B f m => match m with Ok a => f a | Raise e => Raise e end.

(** A row of [posts].  The timestamps are the ISO-8601 texts that the
    handlers store. *)
Record Row : Type := {
  id : Z;
  title : str;
  body : str;
  created_at : str;
  updated_at : str
}.

(** The database file: the rows of [posts] in rowid order (the order of a
    table scan) and the AUTOINCREMENT counter kept in [sqlite_sequence]. *)
Record DB : Type := {
  posts : list Row;
  sqlite_sequence : Z
}.

Definition empty_db : DB := {| posts := []; sqlite_sequence := 0 |}.

Module Sql.

Definition max_rowid (l : list Row) : Z :=
  foldr (fun r m => Z.max (id r) m) 0 l.

(** The rowid AUTOINCREMENT gives the next row: one more than the largest
    rowid that ever existed in the table. *)
Definition next_rowid (db : DB) : Z :=
  Z.max (sqlite_sequence db) (max_rowid (posts db)) + 1.

(** [INSERT INTO posts (title, body, created_at, updated_at)
     VALUES (?, ?, ?, ?)].  A parameter [None] is SQL NULL, which the
    NOT NULL columns refuse; the schema has no other constraint. *)
Definition insert (db : DB) (t b : option str) (c u : str) : result DB :=
  match t, b with
  | Some t, Some b =>
      let rowid := next_rowid db in
      Ok {| posts := posts db ++
              [ {| id := rowid; title := t; body := b;
                   created_at := c; updated_at := u |} ];
            sqlite_sequence := rowid |}
  | _, _ => Raise IntegrityError
  end.

Definition set_fields (t b u : str) (post_id : Z) (r : Row) : Row :=
  if id r =? post_id
  then {| id := id r; title := t; body := b;
          created_at := created_at r; updated_at := u |}
  else r.

(** [UPDATE posts SET title = ?, body = ?, updated_at = ? WHERE id = ?],
    for a [post_id] that has been bound (see [Sqlite3.fits_int64]). *)
Definition update (db : DB) (t b : option str) (u : str) (post_id : Z)
  : result DB :=
  match t, b with
  | Some t, Some b =>
      Ok {| posts := map (set_fields t b u post_id) (posts db);
            sqlite_sequence := sqlite_sequence db |}
  | _, _ =>
      if existsb (fun r => id r =? post_id) (posts db)
      then Raise IntegrityError
      else Ok db
  end.

(** [DELETE FROM posts WHERE id = ?], for a [post_id] that has been bound
    (see [Sqlite3.fits_int64]). *)
Definition delete (db : DB) (post_id : Z) : DB :=
  {| posts := filter (fun r => id r <> post_id) (posts db);
     sqlite_sequence := sqlite_sequence db |}.

(** [SELECT * FROM posts WHERE id = ?] followed by [fetchone()], for a
    [post_id] that has been bound (see [Sqlite3.fits_int64]). *)
Definition select_by_id (db : DB) (post_id : Z) : option Row :=
  find (fun r => id r =? post_id) (posts db).

(** [SELECT COUNT( * ) as cnt FROM posts]. *)
Definition count (db : DB) : Z := Z.of_nat (length (posts db)).

(** Comparison of two TEXT values under the BINARY collation: code point
    by code point, a proper prefix first. *)
Fixpoint text_compare (s t : str) : comparison :=
  match s, t with
  | [], [] => Eq
  | [], _ :: _ => Lt
  | _ :: _, [] => Gt
  | a :: s', b :: t' =>
      match (a ?= b)%N with
      | Eq => text_compare s' t'
      | c => c
      end
  end.

(** The sorter behind ORDER BY created_at DESC: each scanned row goes in
    front of the rows already sorted whose key is not greater than its
    own, so rows with equal keys stay in scan order. *)
Fixpoint sorter_insert (x : Row) (l : list Row) : list Row :=
  match l with
  | [] => [x]
  | y :: l' =>
      match text_compare (created_at y) (created_at x) with
      | Gt => y :: sorter_insert x l'
      | _ => x :: l
      end
  end.

(** [SELECT * FROM posts ORDER BY created_at DESC] followed by
    [fetchall()]. *)
Definition select_order_by_created_at_desc (db : DB) : list Row :=
  foldr sorter_insert [] (posts db).

End Sql.

(** ** Requests and responses *)

(** [request.form], as [get] reads it: the first value of each key. *)
Abbreviation Form := (gmap str str).

(** [request.form.get(key, default)]. *)
Definition form_get (form : Form) (key default : str) : str :=
  match form !! key with
  | Some v => v
  | None => default
  end.

(** A Flask response: status, body and the headers set by the handler. *)
Record Response : Type := {
  status_code : Z;
  data : str;
  headers : gmap str str
}.

(** [make_response(body)]; a handler that returns a plain string gets the
    same response. *)
Definition make_response (body : str) : Response :=
  {| status_code := 200; data := body; headers := ∅ |}.

(** [response.status_code = code]. *)
Definition set_status_code (code : Z) (r : Response) : Response :=
  {| status_code := code; data := data r; headers := headers r |}.

(** [response.headers[name] = value]. *)
Definition set_header (name value : str) (r : Response) : Response :=
  {| status_code := status_code r; data := data r;
     headers := <[name := value]> (headers r) |}.

(** One entry of [posts_with_preview]. *)
Record PostPreview : Type := {
  pv_id : Z;
  pv_title : str;
  pv_body : str;
  pv_preview : str;
  pv_created_at : str;
  pv_updated_at : str
}.

Definition with_preview (post : Row) : PostPreview :=
  {| pv_id := id post;
     pv_title := title post;
     pv_body := body post;
     pv_preview := get_post_preview (body post) 200;
     pv_created_at := created_at post;
     pv_updated_at := updated_at post |}.

(** The calls of [render_template] that app.py makes. *)
Inductive Template : Type :=
  | Index_html (posts : list PostPreview)
  | Post_form_html (post : option Row)
  | Post_html (post : Row) (rendered_body : str)
  | Confirm_delete_html (post : Row).

(** The requests the routes accept. *)
Inductive Request : Type :=
  | GET_index
  | GET_posts_new
  | POST_posts (form : Form)
  | GET_post (post_id : Z)
  | GET_post_edit (post_id : Z)
  | PUT_post (post_id : Z) (form : Form)
  | DELETE_post (post_id : Z)
  | GET_post_confirm_delete (post_id : Z).

(** ** Start-up: schema and seed data *)

(** The newline character. *)
Definition nl : str := [0x0A%N].

(** The three sample posts of [init_db], as (title, body). *)
Definition seed_posts : list (str * str) :=
  [ (lit "Welcome to the HTMX Blog",
     lit "# Hello, World!" ++ nl ++ nl
     ++ lit "This is a blog built with **Flask** and **HTMX**. "
     ++ lit "No frontend framework, no build step, just clean HTML "
     ++ lit "enhanced with hypermedia." ++ nl ++ nl
     ++ lit "## Features" ++ nl ++ nl
     ++ lit "- Create, edit, and delete posts" ++ nl
     ++ lit "- Markdown rendering" ++ nl
     ++ lit "- Dynamic updates without page reloads" ++ nl
     ++ lit "- Clean, minimal design" ++ nl ++ nl
     ++ lit "Enjoy writing!");
    (lit "Why HTMX?",
     lit "HTMX lets you build modern, dynamic web applications "
     ++ lit "without writing JavaScript." ++ nl ++ nl
     ++ lit "Instead of shipping a massive JS bundle to the browser, "
     ++ lit "you return **HTML fragments** from the server and let HTMX "
     ++ lit "swap them into the page." ++ nl ++ nl
     ++ lit "### The philosophy" ++ nl ++ nl
     ++ lit "> Hypermedia as the engine of application state." ++ nl ++ nl
     ++ lit "It's REST the way it was meant to be. Your server returns "
     ++ lit "representations, your client renders them. Simple.");
    (lit "Markdown Tips",
     lit "This blog supports **Markdown** for formatting your posts. "
     ++ lit "Here are some tips:" ++ nl ++ nl
     ++ lit "### Text Formatting" ++ nl ++ nl
     ++ lit "- **Bold** with `**double asterisks**`" ++ nl
     ++ lit "- *Italic* with `*single asterisks*`" ++ nl
     ++ lit "- `Code` with backticks" ++ nl ++ nl
     ++ lit "### Code Blocks" ++ nl ++ nl
     ++ lit "```python" ++ nl
     ++ lit "def hello():" ++ nl
     ++ lit "    print(" ++ dq ++ lit "Hello from the blog!" ++ dq ++ lit ")" ++ nl
     ++ lit "```" ++ nl ++ nl
     ++ lit "### Links" ++ nl ++ nl
     ++ lit "[Like this](https://example.com)" ++ nl ++ nl
     ++ lit "Happy writing!") ].

(** The seeding loop: one INSERT per sample post, all with the same
    timestamp. *)
Fixpoint insert_seeds (db : DB) (now : str) (seeds : list (str * str))
  : result DB :=
  match seeds with
  | [] => Ok db
  | post :: rest =>
      db ← Sql.insert db (Some post.1) (Some post.2) now now;
      insert_seeds db now rest
  end.

(** [init_db()], run on the database file as the last run left it
    ([empty_db] for a new file, where CREATE TABLE IF NOT EXISTS makes the
    table). *)
Definition init_db (db : DB) (now : str) : result DB :=
  if Sql.count db =? 0 then insert_seeds db now seed_posts else Ok db.

(** ** The request handlers *)

Section Handlers.

(** The collaborators outside app.py: the Jinja templates behind
    [render_template] and [markdown.markdown] with its two extensions. *)
Variable render_template : Template -> str.
Variable markdown_markdown : str -> str.

(** [render_markdown(text)]. *)
Definition render_markdown (text : str) : str := markdown_markdown text.

(** The listing that [index], [create_post] and [delete_post] each build.  *)
Definition posts_with_preview (db : DB) : list PostPreview :=
  map with_preview (Sql.select_order_by_created_at_desc db).

(** The 404 answer shared by the handlers that look a post up first. *)
Definition post_not_found : Response :=
  set_status_code 404
    (make_response (flash_message (lit "Post not found.") (lit "error"))).

(** The 422 answer of [create_post] and [update_post]. *)
Definition fields_required : Response :=
  set_status_code 422
    (make_response
       (flash_message (lit "Title and body are required.") (lit "error"))).

(** [GET /]. *)
Definition index (db : DB) : DB * result Response :=
  (db, Ok (make_response (render_template (Index_html (posts_with_preview db))))).

(** [GET /posts/new]. *)
Definition new_post (db : DB) : DB * result Response :=
  (db, Ok (make_response (render_template (Post_form_html None)))).

(** [POST /posts]. *)
Definition create_post (db : DB) (now : str) (form : Form)
  : DB * result Response :=
  let title' := PyStr.strip (form_get form (lit "title") []) in
  let body' := PyStr.strip (form_get form (lit "body") []) in
  if PyStr.is_empty title' || PyStr.is_empty body' then (db, Ok fields_required)
  else
    match Sql.insert db (Some title') (Some body') now now with
    | Raise e => (db, Raise e)
    | Ok db =>
        let html := render_template (Index_html (posts_with_preview db)) in
        let html :=
          html ++ flash_message (lit "Post created successfully!") (lit "success") in
        (db, Ok (set_header (lit "HX-Push-Url") (lit "/") (make_response html)))
    end.

(** [GET /posts/<int:post_id>]. *)
Definition view_post (db : DB) (post_id : Z) : DB * result Response :=
  match Sql.select_by_id db post_id with
  | None => (db, Ok post_not_found)
  | Some post =>
      let rendered_body := render_markdown (body post) in
      (db, Ok (make_response (render_template (Post_html post rendered_body))))
  end.

(** [GET /posts/<int:post_id>/edit]. *)
Definition edit_post (db : DB) (post_id : Z) : DB * result Response :=
  match Sql.select_by_id db post_id with
  | None => (db, Ok post_not_found)
  | Some post =>
      (db, Ok (make_response (render_template (Post_form_html (Some post)))))
  end.

(** [PUT /posts/<int:post_id>].  The row fetched after the UPDATE is
    subscripted without a test for [None]. *)
Definition update_post (db : DB) (now : str) (post_id : Z) (form : Form)
  : DB * result Response :=
  let title' := PyStr.strip (form_get form (lit "title") []) in
  let body' := PyStr.strip (form_get form (lit "body") []) in
  if PyStr.is_empty title' || PyStr.is_empty body' then (db, Ok fields_required)
  else
    match Sql.update db (Some title') (Some body') now post_id with
    | Raise e => (db, Raise e)
    | Ok db =>
        match Sql.select_by_id db post_id with
        | None => (db, Raise TypeError)
        | Some post =>
            let rendered_body := render_markdown (body post) in
            let html := render_template (Post_html post rendered_body) in
            let html :=
              html ++ flash_message (lit "Post updated successfully!")
                        (lit "success") in
            (db, Ok (make_response html))
        end
    end.

(** [DELETE /posts/<int:post_id>]. *)
Definition delete_post (db : DB) (post_id : Z) : DB * result Response :=
  let db := Sql.delete db post_id in
  let html := render_template (Index_html (posts_with_preview db)) in
  let html := html ++ flash_message (lit "Post deleted.") (lit "success") in
  (db, Ok (set_header (lit "HX-Push-Url") (lit "/") (make_response html))).

(** [GET /posts/<int:post_id>/confirm-delete]. *)
Definition confirm_delete (db : DB) (post_id : Z) : DB * result Response :=
  match Sql.select_by_id db post_id with
  | None => (db, Ok post_not_found)
  | Some post =>
      (db, Ok (make_response (render_template (Confirm_delete_html post))))
  end.

(** The routing table: one request, handled at clock reading [now]
    (the text of [datetime.now().isoformat()]). *)
Definition handle (db : DB) (now : str) (req : Request) : DB * result Response :=
  match req with
  | GET_index => index db
  | GET_posts_new => new_post db
  | POST_posts form => create_post db now form
  | GET_post post_id => view_post db post_id
  | GET_post_edit post_id => edit_post db post_id
  | PUT_post post_id form => update_post db now post_id form
  | DELETE_post post_id => delete_post db post_id
  | GET_post_confirm_delete post_id => confirm_delete db post_id
  end.

End Handlers.

(** ** The preview summarizer as the specification words it *)

Module Spec.

(** The Markdown marker characters [#], [*], [`] and [>]. *)
Definition is_marker (c : N) : bool :=
  ((c =? 0x23) || (c =? 0x2A) || (c =? 0x60) || (c =? 0x3E))%N.

(** Character-level removal of every marker. *)
Definition strip_markers (s : str) : str :=
  List.filter (fun c => negb (is_marker c)) s.

(** Every maximal run of white space becomes one space: a white-space
    character followed by another one is dropped, the last one of a run is
    replaced by a space. *)
Fixpoint squeeze (s : str) : str :=
  match s with
  | [] => []
  | c :: s' =>
      if PyStr.isspace c then
        if PyStr.starts_with_space s' then squeeze s' else 0x20%N :: squeeze s'
      else c :: squeeze s'
  end.

(** Collapse the white-space runs, then trim both ends. *)
Definition collapse (s : str) : str := PyStr.strip (squeeze s).

(** Truncate to [max_length] characters and append the ellipsis when the
    collapsed text is longer, else return it unchanged. *)
Definition preview (body : str) (max_length : Z) : str :=
  let plain := collapse (strip_markers body) in
  if PyStr.len plain >? max_length
  then take (Z.to_nat max_length) plain ++ lit "..."
  else plain.

End Spec.

(** ** Store invariants and reachable states *)

(** The table scan meets the rowids in increasing order. *)
Definition rowid_ordered (db : DB) : Prop :=
  StronglySorted Z.lt (map id (posts db)).

(** No stored row has an empty title or an empty body. *)
Definition no_empty_fields (db : DB) : Prop :=
  Forall (fun r => title r <> [] /\ body r <> []) (posts db).

(** Text [s] sorts no later than text [t] under the BINARY collation. *)
Definition text_le (s t : str) : Prop := Sql.text_compare s t <> Gt.

(** The order of a listing: a later [created_at] first, and among equal
    [created_at] the smaller id (the earlier insertion) first. *)
Definition listed_before (a b : Row) : Prop :=
  Sql.text_compare (created_at a) (created_at b) = Gt
  \/ (created_at a = created_at b /\ id a < id b).


(** [pv] lists the store [db]: it shows exactly the rows that [db] holds,
    each with its preview, in listing order. *)
Definition listing_of (db : DB) (pv : list PostPreview) : Prop :=
  exists l, pv = map with_preview l
            /\ l ≡ₚ posts db
            /\ StronglySorted listed_before l.

(** The form fields as the handlers validate them. *)
Definition stripped_title (form : Form) : str :=
  PyStr.strip (form_get form (lit "title") []).

Definition stripped_body (form : Form) : str :=
  PyStr.strip (form_get form (lit "body") []).

(** The two requests whose success sends the client back to the list. *)
Definition is_create_or_delete (req : Request) : bool :=
  match req with
  | POST_posts _ | DELETE_post _ => true
  | _ => false
  end.

Section Runs.

Variable render_template : Template -> str.
Variable markdown_markdown : str -> str.

(** The answer of a successful [create_post] that left the store [db]. *)
Definition created (db : DB) : Response :=
  set_header (lit "HX-Push-Url") (lit "/")
    (make_response
       (render_template (Index_html (posts_with_preview db))
        ++ flash_message (lit "Post created successfully!") (lit "success"))).

(** The answer of [delete_post] that left the store [db]. *)
Definition deleted (db : DB) : Response :=
  set_header (lit "HX-Push-Url") (lit "/")
    (make_response
       (render_template (Index_html (posts_with_preview db))
        ++ flash_message (lit "Post deleted.") (lit "success"))).

(** The answer of a successful [update_post] that read [post] back. *)
Definition updated (post : Row) : Response :=
  make_response
    (render_template (Post_html post (render_markdown markdown_markdown (body post)))
     ++ flash_message (lit "Post updated successfully!") (lit "success")).

(** The answer of [view_post] for the stored [post]. *)
Definition viewed (post : Row) : Response :=
  make_response
    (render_template
       (Post_html post (render_markdown markdown_markdown (body post)))).

(** The states of the database file over the life of the application:
    [init_db] on a new file, any request at any clock reading, and a
    restart of the process (which runs [init_db] again). *)
Inductive reachable : DB -> Prop :=
  | reachable_new now db :
      init_db empty_db now = Ok db -> reachable db
  | reachable_request db now req :
      reachable db ->
      reachable (handle render_template markdown_markdown db now req).1
  | reachable_restart db now db' :
      reachable db -> init_db db now = Ok db' -> reachable db'.


End Runs.

(** ** The binding of the id parameter *)

Module Sqlite3.

(** [execute(sql, (post_id,))] binds the Python [int] as an SQLite INTEGER
    before the statement runs: an [int] outside the signed 64-bit range
    raises [OverflowError]. *)
Definition fits_int64 (n : Z) : bool := (- 2 ^ 63 <=? n) && (n <? 2 ^ 63).

End Sqlite3.

Section Serving.

Variable render_template : Template -> str.
Variable markdown_markdown : str -> str.

(** A request as the application serves it: [handle], with the binding of
    the id by the first statement that takes it.  [view_post], [edit_post],
    [delete_post] and [confirm_delete] execute that statement first;
    [update_post] executes it after the validation of the form.  When the
    id is refused the handler raises and nothing has been written. *)
Definition serve (db : DB) (now : str) (req : Request) : DB * result Response :=
  match req with
  | GET_index | GET_posts_new | POST_posts _ =>
      handle render_template markdown_markdown db now req
  | GET_post post_id | GET_post_edit post_id | DELETE_post post_id
  | GET_post_confirm_delete post_id =>
      if Sqlite3.fits_int64 post_id
      then handle render_template markdown_markdown db now req
      else (db, Raise OverflowError)
  | PUT_post post_id form =>
      if PyStr.is_empty (stripped_title form)
         || PyStr.is_empty (stripped_body form)
      then handle render_template markdown_markdown db now req
      else if Sqlite3.fits_int64 post_id
      then handle render_template markdown_markdown db now req
      else (db, Raise OverflowError)
  end.

End Serving.

(** ** Further notions used to state what the code guarantees *)

(** The routes that accept GET. *)
Definition is_get (req : Request) : bool :=
  match req with
  | GET_index | GET_posts_new | GET_post _ | GET_post_edit _
  | GET_post_confirm_delete _ => true
  | POST_posts _ | PUT_post _ _ | DELETE_post _ => false
  end.

(** The id of the post that a request writes or removes, if any: the fresh
    rowid for Create, the id in the path for Update and Delete. *)
Definition written_id (db : DB) (req : Request) : option Z :=
  match req with
  | POST_posts _ => Some (Sql.next_rowid db)
  | PUT_post post_id _ | DELETE_post post_id => Some post_id
  | _ => None
  end.

(** The AUTOINCREMENT counter is not negative, and every stored id is
    positive and at most the counter. *)
Definition ids_bounded (db : DB) : Prop :=
  0 <= sqlite_sequence db
  /\ Forall (fun r => 1 <= id r <= sqlite_sequence db) (posts db).

(** Every stored title and body is its own [strip()]. *)
Definition fields_trimmed (db : DB) : Prop :=
  Forall (fun r => PyStr.strip (title r) = title r
                   /\ PyStr.strip (body r) = body r) (posts db).


(** Plain text as a preview shows it: every white-space character is a
    space that stands between two other characters, none of them white
    space. *)
Fixpoint single_spaced (s : str) : bool :=
  match s with
  | [] => true
  | c :: s' =>
      if PyStr.isspace c
      then (c =? 0x20)%N && negb (PyStr.is_empty s')
           && negb (PyStr.starts_with_space s') && single_spaced s'
      else single_spaced s'
  end.

Definition plain_text (s : str) : bool :=
  negb (PyStr.starts_with_space s) && single_spaced s
  && forallb (fun c => negb (Spec.is_marker c)) s.

(** * Proofs *)

(** ** Strings *)

Section StringFacts.

Import PyStr.

Lemma lstrip_all_space (s : str) :
  forallb isspace s = true -> lstrip s = [].
Proof.
  induction s as [|c s IH]; simpl; [done|].
  destruct (isspace c); simpl; [exact IH | done].
Qed.

Lemma lstrip_app (a b : str) :
  lstrip (a ++ b) = if forallb isspace a then lstrip b else lstrip a ++ b.
Proof.
  induction a as [|c a IH]; simpl; [done|].
  destruct (isspace c); simpl; [exact IH | done].
Qed.

Lemma forallb_rev (f : N -> bool) (s : str) :
  forallb f (rev s) = forallb f s.
Proof.
  induction s as [|c s IH]; simpl; [done|].
  rewrite forallb_app, IH. simpl. destruct (f c), (forallb f s); done.
Qed.

(** [rstrip] read from the front: a suffix of white space disappears. *)
Lemma rstrip_cons (c : N) (s : str) :
  rstrip (c :: s) = if forallb isspace (c :: s) then [] else c :: rstrip s.
Proof.
  unfold rstrip. simpl rev. rewrite lstrip_app, forallb_rev.
  simpl forallb. destruct (forallb isspace s) eqn:Hs.
  - simpl. destruct (isspace c); simpl; [done|].
    rewrite lstrip_all_space by (by rewrite forallb_rev). done.
  - rewrite andb_false_r. by rewrite rev_app_distr.
Qed.

Lemma split_nil_iff (s : str) :
  split s = [] <-> forallb isspace s = true.
Proof.
  induction s as [|c s IH]; simpl; [done|].
  destruct (isspace c) eqn:Hc; simpl; [exact IH|].
  split; [|done].
  destruct s as [|d s]; [done|].
  destruct (isspace d); [done|].
  destruct (split (d :: s)); done.
Qed.

Lemma split_lstrip (s : str) : split (lstrip s) = split s.
Proof.
  induction s as [|c s IH]; simpl; [done|].
  destruct (isspace c) eqn:Hc; [exact IH|].
  simpl. by rewrite Hc.
Qed.

Lemma replace_by_nothing (old : N) (s : str) :
  replace old [] s = List.filter (fun c => negb (c =? old)%N) s.
Proof.
  induction s as [|c s IH]; simpl; [done|].
  rewrite IH. by destruct (c =? old)%N.
Qed.

Lemma filter_filter_andb (f g : N -> bool) (s : str) :
  List.filter f (List.filter g s) = List.filter (fun c => g c && f c) s.
Proof.
  induction s as [|c s IH]; simpl; [done|].
  destruct (g c); simpl; [|done].
  destruct (f c); simpl; by rewrite IH.
Qed.

(** The four [replace] calls remove exactly the marker characters. *)
Lemma replace_chain_strip_markers (s : str) :
  replace 0x3E [] (replace 0x60 [] (replace 0x2A [] (replace 0x23 [] s)))
  = Spec.strip_markers s.
Proof.
  rewrite !replace_by_nothing, !filter_filter_andb.
  unfold Spec.strip_markers, Spec.is_marker.
  apply filter_ext. intros c.
  destruct (c =? 0x23)%N, (c =? 0x2A)%N, (c =? 0x60)%N, (c =? 0x3E)%N; done.
Qed.

Lemma squeeze_cons (c : N) (s : str) :
  Spec.squeeze (c :: s)
  = if isspace c then
      if starts_with_space s then Spec.squeeze s else 0x20%N :: Spec.squeeze s
    else c :: Spec.squeeze s.
Proof. done. Qed.

Lemma split_cons (c : N) (s : str) :
  split (c :: s)
  = if isspace c then split s
    else match split s with
         | [] => [[c]]
         | w :: ws => if starts_with_space s then [c] :: w :: ws else (c :: w) :: ws
         end.
Proof.
  cbn [split]. destruct (isspace c); [done|].
  destruct s as [|d s]; [done|].
  cbn [starts_with_space]. destruct (isspace d) eqn:Hd.
  - destruct (split (d :: s)) eqn:Hsp; [|done].
    apply split_nil_iff in Hsp. cbn [forallb] in Hsp. rewrite Hd in Hsp.
    by destruct (split (d :: s)).
  - by destruct (split (d :: s)).
Qed.

Lemma squeeze_all_space (s : str) :
  forallb isspace (Spec.squeeze s) = forallb isspace s.
Proof.
  induction s as [|c s IH]; [done|].
  rewrite squeeze_cons. cbn [forallb].
  destruct (isspace c) eqn:Hc; [|cbn [forallb]; by rewrite Hc].
  destruct (starts_with_space s); [exact IH|].
  cbn [forallb]. by rewrite IH.
Qed.

Lemma lstrip_starts (s : str) : starts_with_space (lstrip s) = false.
Proof.
  induction s as [|c s IH]; [done|]. cbn [lstrip].
  destruct (isspace c) eqn:Hc; [exact IH|]. cbn. exact Hc.
Qed.

Lemma lstrip_no_space (s : str) : starts_with_space s = false -> lstrip s = s.
Proof. destruct s as [|c s]; [done|]. cbn. by intros ->. Qed.

Lemma lstrip_squeeze (s : str) :
  lstrip (Spec.squeeze s) = Spec.squeeze (lstrip s).
Proof.
  induction s as [|c s IH]; [done|].
  rewrite squeeze_cons. cbn [lstrip].
  destruct (isspace c) eqn:Hc.
  - destruct (starts_with_space s) eqn:Hs; [exact IH|].
    cbn [lstrip]. change (isspace 32) with true. cbn iota. rewrite IH.
    by rewrite (lstrip_no_space s Hs).
  - cbn [lstrip]. rewrite Hc. by rewrite squeeze_cons, Hc.
Qed.

(** Joining the words of [s] with one space gives the squeezed text without
    its trailing white space, up to the one space that stands for leading
    white space. *)
Lemma rstrip_squeeze (s : str) :
  rstrip (Spec.squeeze s)
  = (if starts_with_space s && negb (forallb isspace s) then [0x20%N] else [])
    ++ join [0x20%N] (split s).
Proof.
  induction s as [|c s IH]; [done|].
  rewrite squeeze_cons, split_cons. cbn [starts_with_space forallb].
  destruct (isspace c) eqn:Hc.
  - destruct (starts_with_space s) eqn:Hs.
    + rewrite IH. done.
    + rewrite rstrip_cons. cbn [forallb]. rewrite squeeze_all_space.
      change (isspace 32) with true. cbn [andb negb].
      destruct (forallb isspace s) eqn:Hall.
      * cbn. by apply split_nil_iff in Hall as ->.
      * cbn [negb]. rewrite IH. by rewrite andb_false_l.
  - rewrite rstrip_cons. cbn [forallb]. rewrite Hc. cbn [andb app].
    rewrite IH.
    destruct (split s) as [|w ws] eqn:Hsp.
    + apply split_nil_iff in Hsp. rewrite Hsp, andb_false_r. done.
    + assert (forallb isspace s = false) as ->.
      { destruct (forallb isspace s) eqn:Hall; [|done].
        apply split_nil_iff in Hall. congruence. }
      rewrite andb_true_r. destruct (starts_with_space s); [done|].
      cbn. by destruct ws.
Qed.

(** [" ".join(s.split())] is the specification's collapse-and-trim. *)
Lemma join_split_collapse (s : str) :
  join (lit " ") (split s) = Spec.collapse s.
Proof.
  unfold Spec.collapse, strip.
  rewrite lstrip_squeeze, rstrip_squeeze, split_lstrip, lstrip_starts.
  done.
Qed.

Lemma slice_to_take (s : str) (n : Z) :
  0 <= n -> slice_to s n = take (Z.to_nat n) s.
Proof.
  intros Hn. unfold slice_to, len.
  destruct (n <? 0) eqn:Hlt; [lia|].
  destruct (Z.le_gt_cases n (Z.of_nat (length s))) as [Hle|Hgt].
  - by rewrite Z.min_l.
  - rewrite Z.min_r by lia. rewrite Nat2Z.id.
    rewrite !take_ge by lia. done.
Qed.

End StringFacts.

(** ** The store *)

Section StoreFacts.

Import Sql.

Lemma is_empty_false (s : str) : PyStr.is_empty s = false <-> s <> [].
Proof. by destruct s. Qed.

Lemma text_compare_refl (s : str) : text_compare s s = Eq.
Proof.
  induction s as [|a s IH]; [done|]. cbn. by rewrite N.compare_refl.
Qed.

Lemma text_compare_eq (s t : str) : text_compare s t = Eq -> s = t.
Proof.
  revert t. induction s as [|a s IH]; intros [|b t]; cbn; try done.
  destruct (a ?= b)%N eqn:Hab; try done.
  apply N.compare_eq in Hab as ->. by intros ->%IH.
Qed.

Lemma text_compare_antisym (s t : str) :
  text_compare t s = CompOpp (text_compare s t).
Proof.
  revert t. induction s as [|a s IH]; intros [|b t]; cbn; try done.
  rewrite (N.compare_antisym a b).
  destruct (a ?= b)%N; cbn; [apply IH | done | done].
Qed.

Lemma text_compare_gt_trans (s t u : str) :
  text_compare s t = Gt -> text_compare t u = Gt -> text_compare s u = Gt.
Proof.
  revert t u. induction s as [|a s IH]; intros [|b t] [|c u]; cbn; try done.
  destruct (a ?= b)%N eqn:Hab, (b ?= c)%N eqn:Hbc; try done.
  - apply N.compare_eq in Hab as ->. rewrite Hbc. apply IH.
  - apply N.compare_eq in Hab as ->. by rewrite Hbc.
  - apply N.compare_eq in Hbc as <-. by rewrite Hab.
  - intros _ _. apply N.compare_gt_iff in Hab, Hbc.
    assert ((a ?= c)%N = Gt) as ->; [|done]. apply N.compare_gt_iff. lia.
Qed.

(** On keys, "not greater" leaves "smaller" or "equal". *)
Lemma text_compare_not_gt (s t : str) :
  text_compare s t <> Gt -> text_compare t s = Gt \/ t = s.
Proof.
  intros H. rewrite (text_compare_antisym s t).
  destruct (text_compare s t) eqn:E; [|by left|done].
  right. symmetry. by apply text_compare_eq.
Qed.


Lemma text_le_trans (s t u : str) : text_le s t -> text_le t u -> text_le s u.
Proof.
  unfold text_le. intros Hst Htu Hsu.
  destruct (text_compare_not_gt s t Hst) as [Hts | ->]; [|done].
  apply Htu. eapply text_compare_gt_trans; eassumption.
Qed.

Lemma max_rowid_ge (l : list Row) (r : Row) : r ∈ l -> id r <= max_rowid l.
Proof.
  unfold max_rowid. induction 1 as [r l|r r' l _ IH]; cbn [foldr]; lia.
Qed.

Lemma next_rowid_fresh (db : DB) (r : Row) :
  r ∈ posts db -> id r < next_rowid db.
Proof. intros H%max_rowid_ge. unfold next_rowid. lia. Qed.

(** *** Lookup by id after each statement *)

Lemma find_id_app_fresh (l : list Row) (r : Row) :
  Forall (fun r' => id r' <> id r) l ->
  find (fun r' => id r' =? id r) (l ++ [r]) = Some r.
Proof.
  induction 1 as [|r' l Hne _ IH]; cbn.
  - by rewrite Z.eqb_refl.
  - apply Z.eqb_neq in Hne. by rewrite Hne.
Qed.

Lemma select_after_insert (db db' : DB) (t b c u : str) :
  insert db (Some t) (Some b) c u = Ok db' ->
  select_by_id db' (next_rowid db)
  = Some {| id := next_rowid db; title := t; body := b;
            created_at := c; updated_at := u |}.
Proof.
  intros [= <-]. unfold select_by_id. cbn [posts].
  apply (find_id_app_fresh (posts db)
           {| id := next_rowid db; title := t; body := b;
              created_at := c; updated_at := u |}).
  apply Forall_forall. intros r Hr%next_rowid_fresh. cbn. lia.
Qed.

Lemma find_id_none (l : list Row) (post_id : Z) :
  find (fun r => id r =? post_id) l = None <->
  Forall (fun r => id r <> post_id) l.
Proof.
  induction l as [|r l IH]; cbn.
  - split; [constructor | done].
  - destruct (id r =? post_id) eqn:E.
    + apply Z.eqb_eq in E. split; [done|]. by intros [? _]%Forall_cons.
    + apply Z.eqb_neq in E. rewrite IH. split.
      * by constructor.
      * by intros [_ ?]%Forall_cons.
Qed.

Lemma find_id_some (l : list Row) (post_id : Z) (r : Row) :
  find (fun r => id r =? post_id) l = Some r -> r ∈ l /\ id r = post_id.
Proof.
  induction l as [|r' l IH]; cbn; [done|].
  destruct (id r' =? post_id) eqn:E.
  - intros [= ->]. apply Z.eqb_eq in E. split; [left | done].
  - intros [? ?]%IH. split; [by right | done].
Qed.

Lemma set_fields_id (t b u : str) (post_id : Z) (r : Row) :
  id (set_fields t b u post_id r) = id r.
Proof. unfold set_fields. by destruct (id r =? post_id). Qed.

Lemma find_id_set_fields (l : list Row) (t b u : str) (post_id p : Z) :
  find (fun r => id r =? p) (map (set_fields t b u post_id) l)
  = set_fields t b u post_id <$> find (fun r => id r =? p) l.
Proof.
  induction l as [|r l IH]; cbn; [done|].
  rewrite set_fields_id. by destruct (id r =? p).
Qed.


(** An UPDATE that matches no row leaves the table as it was. *)
Lemma set_fields_absent (l : list Row) (t b u : str) (post_id : Z) :
  Forall (fun r => id r <> post_id) l ->
  map (set_fields t b u post_id) l = l.
Proof.
  induction 1 as [|r l Hne _ IH]; cbn; [done|].
  rewrite IH. unfold set_fields. apply Z.eqb_neq in Hne. by rewrite Hne.
Qed.

Lemma update_absent (db : DB) (t b u : str) (post_id : Z) :
  select_by_id db post_id = None ->
  update db (Some t) (Some b) u post_id = Ok db.
Proof.
  intros H%find_id_none. unfold update.
  rewrite set_fields_absent by done. by destruct db.
Qed.

Lemma delete_absent (db : DB) (post_id : Z) :
  select_by_id db post_id = None -> delete db post_id = db.
Proof.
  intros H%find_id_none. unfold delete. destruct db as [l q]. cbn in *.
  f_equal. induction H as [|r l Hne _ IH]; [done|].
  rewrite filter_cons_True by done. by rewrite IH.
Qed.

Lemma select_after_delete (db : DB) (post_id : Z) :
  select_by_id (delete db post_id) post_id = None.
Proof.
  apply find_id_none. cbn. apply Forall_forall.
  by intros r [? _]%list_elem_of_filter.
Qed.

Lemma delete_idempotent (db : DB) (post_id : Z) :
  delete (delete db post_id) post_id = delete db post_id.
Proof. apply delete_absent, select_after_delete. Qed.

End StoreFacts.

(** ** ORDER BY created_at DESC *)

Section Ordering.

Import Sql.

Lemma sorter_insert_perm (x : Row) (l : list Row) :
  sorter_insert x l ≡ₚ x :: l.
Proof.
  induction l as [|y l IH]; cbn; [done|].
  destruct (text_compare (created_at y) (created_at x)); try done.
  rewrite IH. apply Permutation_swap.
Qed.

Lemma sorter_perm (l : list Row) : foldr sorter_insert [] l ≡ₚ l.
Proof.
  induction l as [|x l IH]; cbn; [done|].
  by rewrite sorter_insert_perm, IH.
Qed.

Lemma select_order_perm (db : DB) :
  select_order_by_created_at_desc db ≡ₚ posts db.
Proof. apply sorter_perm. Qed.

(** A row that sorts before [y] also sorts before whatever [y] precedes,
    as long as its id is the smaller one. *)
Lemma listed_before_chain (x y z : Row) :
  id x < id z ->
  text_compare (created_at x) (created_at y) = Gt
    \/ created_at x = created_at y ->
  listed_before y z -> listed_before x z.
Proof.
  intros Hid [Hxy|Hxy] [Hyz|[Hyz _]]; unfold listed_before.
  - left. eapply text_compare_gt_trans; eassumption.
  - left. by rewrite <- Hyz.
  - left. by rewrite Hxy.
  - right. split; [congruence | done].
Qed.

(** The scanned row [x] has a smaller rowid than the rows sorted so far. *)
Lemma sorter_insert_sorted (x : Row) (l : list Row) :
  Forall (fun y => id x < id y) l ->
  StronglySorted listed_before l ->
  StronglySorted listed_before (sorter_insert x l).
Proof.
  intros Hid Hs. induction Hs as [|y l Hs IH Hy]; cbn.
  - repeat constructor.
  - apply Forall_cons in Hid as [Hxy Hid].
    destruct (text_compare (created_at y) (created_at x)) eqn:E.
    + assert (text_compare (created_at x) (created_at y) = Gt
              \/ created_at x = created_at y) as Hk.
      { right. symmetry. by apply text_compare_eq. }
      constructor; [by constructor|]. constructor.
      * destruct Hk as [Hk|Hk]; [by left | by right].
      * apply Forall_forall. intros z Hz.
        apply (listed_before_chain x y z); [|done|].
        -- by apply (proj1 (Forall_forall _ _) Hid).
        -- by apply (proj1 (Forall_forall _ _) Hy).
    + assert (text_compare (created_at x) (created_at y) = Gt
              \/ created_at x = created_at y) as Hk.
      { left. rewrite (text_compare_antisym (created_at y)), E. done. }
      constructor; [by constructor|]. constructor.
      * destruct Hk as [Hk|Hk]; [by left | by right].
      * apply Forall_forall. intros z Hz.
        apply (listed_before_chain x y z); [|done|].
        -- by apply (proj1 (Forall_forall _ _) Hid).
        -- by apply (proj1 (Forall_forall _ _) Hy).
    + constructor; [by apply IH|].
      rewrite sorter_insert_perm. constructor; [by left | done].
Qed.

Lemma select_order_sorted (db : DB) :
  rowid_ordered db ->
  StronglySorted listed_before (select_order_by_created_at_desc db).
Proof.
  unfold rowid_ordered, select_order_by_created_at_desc.
  induction (posts db) as [|x l IH]; cbn; intros Hs; [constructor|].
  apply StronglySorted_cons in Hs as [Hx Hs].
  apply sorter_insert_sorted; [|by apply IH].
  rewrite sorter_perm. apply Forall_forall. intros y Hy.
  apply (proj1 (Forall_forall _ _) Hx).
  apply list_elem_of_In, in_map, list_elem_of_In, Hy.
Qed.

End Ordering.

(** ** Invariants of the store *)

Section Invariants.

Import Sql.

Lemma rowid_ordered_insert (db db' : DB) (t b : option str) (c u : str) :
  rowid_ordered db -> insert db t b c u = Ok db' -> rowid_ordered db'.
Proof.
  unfold rowid_ordered. intros Hs.
  destruct t as [t|], b as [b|]; cbn; try done. intros [= <-]. cbn [posts].
  rewrite map_app. apply StronglySorted_app_2; [|done|repeat constructor].
  intros x1 x2 Hx1 ->%list_elem_of_singleton. cbn.
  apply list_elem_of_In, in_map_iff in Hx1 as (r & <- & Hr).
  by apply next_rowid_fresh, list_elem_of_In.
Qed.

Lemma rowid_ordered_delete (db : DB) (post_id : Z) :
  rowid_ordered db -> rowid_ordered (delete db post_id).
Proof.
  unfold rowid_ordered. cbn [delete posts].
  induction (posts db) as [|r l IH]; [done|].
  cbn [map]. intros [Hr Hl]%StronglySorted_cons.
  assert (Forall (Z.lt (id r)) (map id (filter (fun r => id r <> post_id) l)))
    as Hr'.
  { apply Forall_forall. intros x (y & <- & Hy)%list_elem_of_In%in_map_iff.
    apply list_elem_of_In, list_elem_of_filter in Hy as [_ Hy].
    apply (proj1 (Forall_forall _ _) Hr), list_elem_of_In, in_map.
    by apply list_elem_of_In. }
  destruct (decide (id r <> post_id)).
  - rewrite filter_cons_True by done. cbn [map].
    apply StronglySorted_cons. split; [done | by apply IH].
  - rewrite filter_cons_False by done. by apply IH.
Qed.

Lemma no_empty_fields_insert (db db' : DB) (t b c u : str) :
  t <> [] -> b <> [] ->
  no_empty_fields db -> insert db (Some t) (Some b) c u = Ok db' ->
  no_empty_fields db'.
Proof.
  unfold no_empty_fields. intros Ht Hb Hdb [= <-]. cbn [posts].
  apply Forall_app. split; [done|]. by repeat constructor.
Qed.

Lemma no_empty_fields_update (db db' : DB) (t b u : str) (post_id : Z) :
  t <> [] -> b <> [] ->
  no_empty_fields db -> update db (Some t) (Some b) u post_id = Ok db' ->
  no_empty_fields db'.
Proof.
  unfold no_empty_fields. intros Ht Hb Hdb [= <-]. cbn [posts].
  induction Hdb as [|r l Hr _ IH]; cbn [map]; constructor; [|done].
  unfold set_fields. by destruct (id r =? post_id).
Qed.

Lemma no_empty_fields_delete (db : DB) (post_id : Z) :
  no_empty_fields db -> no_empty_fields (delete db post_id).
Proof.
  unfold no_empty_fields. cbn [delete posts]. intros H.
  apply Forall_forall. intros r [_ Hr]%list_elem_of_filter.
  by apply (proj1 (Forall_forall _ _) H).
Qed.

Lemma no_empty_fields_seeds (seeds : list (str * str)) (db db' : DB) (now : str) :
  Forall (fun p => p.1 <> [] /\ p.2 <> []) seeds ->
  no_empty_fields db -> insert_seeds db now seeds = Ok db' ->
  no_empty_fields db'.
Proof.
  intros Hseeds. revert db.
  induction Hseeds as [|p seeds [Ht Hb] _ IH]; intros db Hdb.
  - by intros [= <-].
  - cbn [insert_seeds]. unfold mbind, result_bind.
    destruct (insert db (Some p.1) (Some p.2) now now) as [db1|] eqn:E; [|done].
    apply IH. by apply (no_empty_fields_insert db db1 p.1 p.2 now now).
Qed.

Lemma seed_posts_not_empty :
  Forall (fun p => p.1 <> [] /\ p.2 <> []) seed_posts.
Proof. repeat constructor; by vm_compute. Qed.

Lemma no_empty_fields_init_db (db db' : DB) (now : str) :
  no_empty_fields db -> init_db db now = Ok db' -> no_empty_fields db'.
Proof.
  unfold init_db. intros Hdb. destruct (count db =? 0).
  - apply (no_empty_fields_seeds seed_posts); [apply seed_posts_not_empty | done].
  - by intros [= <-].
Qed.

Lemma rowid_ordered_update (db db' : DB) (t b : option str) (u : str)
  (post_id : Z) :
  rowid_ordered db -> update db t b u post_id = Ok db' -> rowid_ordered db'.
Proof.
  unfold rowid_ordered, update. intros Hs.
  destruct t as [t|], b as [b|];
    try (destruct (existsb _ _); [done|]; by intros [= <-]).
  intros [= <-]. cbn [posts].
  rewrite map_map, (map_ext _ id); [done|]. intros r. apply set_fields_id.
Qed.

Lemma rowid_ordered_seeds (seeds : list (str * str)) (db db' : DB) (now : str) :
  rowid_ordered db -> insert_seeds db now seeds = Ok db' -> rowid_ordered db'.
Proof.
  revert db. induction seeds as [|p seeds IH]; intros db Hdb.
  - by intros [= <-].
  - cbn [insert_seeds]. unfold mbind, result_bind.
    destruct (insert db (Some p.1) (Some p.2) now now) as [db1|] eqn:E; [|done].
    apply IH. by eapply rowid_ordered_insert.
Qed.

Lemma rowid_ordered_init_db (db db' : DB) (now : str) :
  rowid_ordered db -> init_db db now = Ok db' -> rowid_ordered db'.
Proof.
  unfold init_db. intros Hdb. destruct (count db =? 0).
  - by apply rowid_ordered_seeds.
  - by intros [= <-].
Qed.

(** *** Which rows a statement leaves in the table *)







End Invariants.

(** ** The handlers *)

(** The two outcomes of the validation that [create_post] and
    [update_post] start with. *)
Ltac validation_cases form :=
  let He := fresh "Hempty" in
  let Ht := fresh "Htitle" in
  let Hb := fresh "Hbody" in
  destruct (decide (stripped_title form = [] \/ stripped_body form = []))
    as [He|He];
  [| assert (stripped_title form <> []) as Ht by tauto;
     assert (stripped_body form <> []) as Hb by tauto;
     clear He ].

Section HandlerFacts.

Variable render_template : Template -> str.
Variable markdown_markdown : str -> str.

Lemma create_post_rejects (db : DB) (now : str) (form : Form) :
  stripped_title form = [] \/ stripped_body form = [] ->
  create_post render_template db now form = (db, Ok fields_required).
Proof.
  unfold create_post. fold (stripped_title form) (stripped_body form).
  intros [-> | ->]; [done|]. by rewrite orb_true_r.
Qed.

Lemma update_post_rejects (db : DB) (now : str) (post_id : Z) (form : Form) :
  stripped_title form = [] \/ stripped_body form = [] ->
  update_post render_template markdown_markdown db now post_id form
  = (db, Ok fields_required).
Proof.
  unfold update_post. fold (stripped_title form) (stripped_body form).
  intros [-> | ->]; [done|]. by rewrite orb_true_r.
Qed.

Lemma create_post_accepts (db : DB) (now : str) (form : Form) :
  stripped_title form <> [] -> stripped_body form <> [] ->
  exists db',
    Sql.insert db (Some (stripped_title form)) (Some (stripped_body form))
      now now = Ok db'
    /\ create_post render_template db now form
       = (db', Ok (created render_template db')).
Proof.
  intros Ht%is_empty_false Hb%is_empty_false.
  unfold create_post. fold (stripped_title form) (stripped_body form).
  rewrite Ht, Hb. cbn [orb Sql.insert]. eauto.
Qed.

Lemma update_post_accepts (db : DB) (now : str) (post_id : Z) (form : Form) :
  stripped_title form <> [] -> stripped_body form <> [] ->
  exists db',
    Sql.update db (Some (stripped_title form)) (Some (stripped_body form))
      now post_id = Ok db'
    /\ update_post render_template markdown_markdown db now post_id form
       = match Sql.select_by_id db' post_id with
         | None => (db', Raise TypeError)
         | Some post => (db', Ok (updated render_template markdown_markdown post))
         end.
Proof.
  intros Ht%is_empty_false Hb%is_empty_false.
  unfold update_post. fold (stripped_title form) (stripped_body form).
  rewrite Ht, Hb. cbn [orb Sql.update]. eexists. split; [done|].
  by destruct (Sql.select_by_id _ post_id).
Qed.

Lemma delete_post_eq (db : DB) (post_id : Z) :
  delete_post render_template db post_id
  = (Sql.delete db post_id, Ok (deleted render_template (Sql.delete db post_id))).
Proof. done. Qed.

Lemma form_get_absent (form : Form) (key : str) :
  form !! key = None -> form_get form key [] = [].
Proof. unfold form_get. by intros ->. Qed.

(** What a request does to the store: nothing, one INSERT of validated
    fields, one UPDATE of validated fields, or one DELETE. *)
Lemma handle_store (db : DB) (now : str) (req : Request) :
  let db' := (handle render_template markdown_markdown db now req).1 in
  db' = db
  \/ (exists t b, t <> [] /\ b <> []
                  /\ Sql.insert db (Some t) (Some b) now now = Ok db')
  \/ (exists t b post_id,
        t <> [] /\ b <> []
        /\ Sql.update db (Some t) (Some b) now post_id = Ok db')
  \/ (exists post_id, db' = Sql.delete db post_id).
Proof.
  destruct req as [| |form|post_id|post_id|post_id form|post_id|post_id];
    cbn [handle].
  - by left.
  - by left.
  - validation_cases form.
    + left. by rewrite create_post_rejects.
    + destruct (create_post_accepts db now form) as (db' & Hins & ->); [done..|].
      right; left. by exists (stripped_title form), (stripped_body form).
  - left. unfold view_post. by destruct (Sql.select_by_id db post_id).
  - left. unfold edit_post. by destruct (Sql.select_by_id db post_id).
  - validation_cases form.
    + left. by rewrite update_post_rejects.
    + destruct (update_post_accepts db now post_id form)
        as (db' & Hupd & ->); [done..|].
      right; right; left.
      exists (stripped_title form), (stripped_body form), post_id.
      by destruct (Sql.select_by_id db' post_id).
  - right; right; right. by exists post_id.
  - left. unfold confirm_delete. by destruct (Sql.select_by_id db post_id).
Qed.

Lemma no_empty_fields_handle (db : DB) (now : str) (req : Request) :
  no_empty_fields db ->
  no_empty_fields (handle render_template markdown_markdown db now req).1.
Proof.
  intros Hdb.
  destruct (handle_store db now req)
    as [-> | [(t & b & ? & ? & Hins) | [(t & b & p & ? & ? & Hupd) | [p ->]]]].
  - done.
  - by apply (no_empty_fields_insert db _ t b now now).
  - by apply (no_empty_fields_update db _ t b now p).
  - by apply no_empty_fields_delete.
Qed.

Lemma rowid_ordered_handle (db : DB) (now : str) (req : Request) :
  rowid_ordered db ->
  rowid_ordered (handle render_template markdown_markdown db now req).1.
Proof.
  intros Hdb.
  destruct (handle_store db now req)
    as [-> | [(t & b & ? & ? & Hins) | [(t & b & p & ? & ? & Hupd) | [p ->]]]].
  - done.
  - by eapply rowid_ordered_insert.
  - by eapply rowid_ordered_update.
  - by apply rowid_ordered_delete.
Qed.


(** *** Runs *)

Lemma reachable_rowid_ordered (db : DB) :
  reachable render_template markdown_markdown db -> rowid_ordered db.
Proof.
  induction 1 as [now db Hinit | db now req _ IH | db now db' _ IH Hinit].
  - apply (rowid_ordered_init_db empty_db db now); [constructor | done].
  - by apply rowid_ordered_handle.
  - by apply (rowid_ordered_init_db db db' now).
Qed.


End HandlerFacts.

(** * The claims *)

(** C1.  Update of an id that refers to no stored post, with a title and a
    body that are non-empty after trimming: the handler does not answer 404.
    The UPDATE matches no row and leaves the store as it was, [fetchone()]
    returns [None], and [update_post] subscripts it: the handler raises
    [TypeError] and returns no response. *)
Theorem update_post_absent_id_raises
  (render_template : Template -> str) (markdown_markdown : str -> str)
  (db : DB) (now : str) (post_id : Z) (form : Form) :
  Sql.select_by_id db post_id = None ->
  stripped_title form <> [] ->
  stripped_body form <> [] ->
  update_post render_template markdown_markdown db now post_id form
  = (db, Raise TypeError).
Proof.
  intros Habsent Ht Hb.
  destruct (update_post_accepts render_template markdown_markdown
              db now post_id form Ht Hb) as (db' & Hupd & ->).
  rewrite (update_absent db _ _ now post_id Habsent) in Hupd.
  injection Hupd as <-. by rewrite Habsent.
Qed.

Lemma update_post_absent_id_raises_witness :
  update_post (fun _ => []) (fun text => text)
    empty_db (lit "2026-01-01T00:00:00") 1
    {[ lit "title" := lit "a"; lit "body" := lit "b" ]}
  = (empty_db, Raise TypeError).
Proof. apply update_post_absent_id_raises; by vm_compute. Defined.

(** C2 as stated fails: the store refuses NULL in title and body (the
    columns are NOT NULL) and nothing else.  An INSERT and an UPDATE that
    reach it with empty strings, past the handlers, are carried out and
    leave rows with an empty title and an empty body. *)
Lemma store_accepts_empty_fields :
  let stamp := lit "2026-01-01T00:00:00" in
  let good := {| posts := [ {| id := 1; title := lit "Hello";
                               body := lit "World";
                               created_at := stamp; updated_at := stamp |} ];
                 sqlite_sequence := 1 |} in
  Sql.insert empty_db None (Some (lit "World")) stamp stamp
  = Raise IntegrityError
  /\ (exists db, Sql.insert empty_db (Some []) (Some []) stamp stamp = Ok db
                 /\ ~ no_empty_fields db)
  /\ no_empty_fields good
  /\ (exists db, Sql.update good (Some []) (Some []) stamp 1 = Ok db
                 /\ ~ no_empty_fields db).
Proof.
  cbn zeta. split; [done|]. split; [|split].
  - eexists. split; [reflexivity|].
    intros [[H _] _]%Forall_cons. by apply H.
  - repeat constructor; by vm_compute.
  - eexists. split; [reflexivity|].
    intros [[H _] _]%Forall_cons. by apply H.
Qed.

(** C2, as the code has it.  In every state of the posts relation that the
    application reaches (from [init_db] on a new file, through any requests
    at any clock readings and any restarts), no stored row has an empty
    title or an empty body: [create_post] and [update_post] validate the
    trimmed fields before the INSERT and the UPDATE. *)
Theorem reachable_no_empty_fields
  (render_template : Template -> str) (markdown_markdown : str -> str)
  (db : DB) :
  reachable render_template markdown_markdown db -> no_empty_fields db.
Proof.
  induction 1 as [now db Hinit | db now req _ IH | db now db' _ IH Hinit].
  - apply (no_empty_fields_init_db empty_db db now); [constructor | done].
  - by apply no_empty_fields_handle.
  - by apply (no_empty_fields_init_db db db' now).
Qed.

Lemma reachable_no_empty_fields_witness :
  let rt : Template -> str := fun _ => [] in
  let md : str -> str := fun text => text in
  let now := lit "2026-01-01T00:00:00" in
  let form : Form := {[ lit "title" := lit "Hello"; lit "body" := lit "World" ]} in
  let seeded :=
    match init_db empty_db now with Ok db => db | Raise _ => empty_db end in
  no_empty_fields (handle rt md seeded now (POST_posts form)).1.
Proof.
  intros rt md now form seeded.
  apply (reachable_no_empty_fields rt md).
  apply reachable_request. apply (reachable_new rt md now). by vm_compute.
Defined.

(** C3.  On a store whose table scan follows the rowids (as in every state
    the application reaches, [reachable_rowid_ordered]), the listing that
    List puts in its response, and the listings that a successful Create and
    a Delete put in theirs, show exactly the rows that the store holds when
    the response is built, ordered by created_at descending, rows with equal
    created_at by ascending id (insertion order).  Each is computed from
    the store of that request: the store after the INSERT for Create, the
    store after the DELETE for Delete. *)
Theorem listings_ordered
  (render_template : Template -> str) (db : DB) :
  rowid_ordered db ->
  listing_of db (posts_with_preview db)
  /\ index render_template db
     = (db, Ok (make_response
                  (render_template (Index_html (posts_with_preview db)))))
  /\ (forall now form,
        stripped_title form <> [] -> stripped_body form <> [] ->
        exists db',
          create_post render_template db now form
          = (db', Ok (created render_template db'))
          /\ data (created render_template db')
             = render_template (Index_html (posts_with_preview db'))
               ++ flash_message (lit "Post created successfully!")
                    (lit "success")
          /\ listing_of db' (posts_with_preview db'))
  /\ (forall post_id,
        let db' := Sql.delete db post_id in
        delete_post render_template db post_id
        = (db', Ok (deleted render_template db'))
        /\ data (deleted render_template db')
           = render_template (Index_html (posts_with_preview db'))
             ++ flash_message (lit "Post deleted.") (lit "success")
        /\ listing_of db' (posts_with_preview db')).
Proof.
  assert (forall d, rowid_ordered d -> listing_of d (posts_with_preview d))
    as Hlisting.
  { intros d Hd. exists (Sql.select_order_by_created_at_desc d).
    split; [done|]. split; [apply select_order_perm|].
    by apply select_order_sorted. }
  intros Hdb. split; [by apply Hlisting|]. split; [done|]. split.
  - intros now form Ht Hb.
    destruct (create_post_accepts render_template db now form Ht Hb)
      as (db' & Hins & Hcreate).
    exists db'. split; [done|]. split; [done|].
    apply Hlisting. by eapply rowid_ordered_insert.
  - intros post_id. cbn zeta. split; [apply delete_post_eq|].
    split; [done|]. by apply Hlisting, rowid_ordered_delete.
Qed.

Lemma listings_ordered_witness :
  let rt : Template -> str := fun _ => [] in
  let stamp := lit "2026-01-01T00:00:00" in
  let db :=
    {| posts :=
         [ {| id := 1; title := lit "Welcome"; body := lit "# Hello";
              created_at := stamp; updated_at := stamp |};
           {| id := 2; title := lit "Why"; body := lit "HTMX";
              created_at := stamp; updated_at := stamp |};
           {| id := 3; title := lit "Later"; body := lit "News";
              created_at := lit "2026-01-02T09:00:00";
              updated_at := lit "2026-01-02T09:00:00" |} ];
       sqlite_sequence := 3 |} in
  map pv_id (posts_with_preview db) = [3; 1; 2]
  /\ listing_of db (posts_with_preview db)
  /\ index rt db
     = (db, Ok (make_response (rt (Index_html (posts_with_preview db)))))
  /\ (forall now form,
        stripped_title form <> [] -> stripped_body form <> [] ->
        exists db',
          create_post rt db now form = (db', Ok (created rt db'))
          /\ data (created rt db')
             = rt (Index_html (posts_with_preview db'))
               ++ flash_message (lit "Post created successfully!")
                    (lit "success")
          /\ listing_of db' (posts_with_preview db'))
  /\ (forall post_id,
        let db' := Sql.delete db post_id in
        delete_post rt db post_id = (db', Ok (deleted rt db'))
        /\ data (deleted rt db')
           = rt (Index_html (posts_with_preview db'))
             ++ flash_message (lit "Post deleted.") (lit "success")
        /\ listing_of db' (posts_with_preview db')).
Proof.
  intros rt stamp db. split; [by vm_compute|].
  apply (listings_ordered rt db).
  unfold rowid_ordered. vm_compute. repeat constructor.
Defined.

(** C4.  A Create or Update request whose title or body is empty after
    trimming is answered with status 422 and a body that is the
    error-severity flash fragment alone; the store is left as it was; for
    Update this holds for every id, stored or not. *)
Theorem empty_fields_rejected
  (render_template : Template -> str) (markdown_markdown : str -> str)
  (db : DB) (now : str) (post_id : Z) (form : Form) :
  stripped_title form = [] \/ stripped_body form = [] ->
  create_post render_template db now form = (db, Ok fields_required)
  /\ update_post render_template markdown_markdown db now post_id form
     = (db, Ok fields_required)
  /\ status_code fields_required = 422
  /\ data fields_required
     = flash_message (lit "Title and body are required.") (lit "error")
  /\ headers fields_required = ∅.
Proof.
  intros H. split; [by apply create_post_rejects|].
  split; [by apply update_post_rejects|]. done.
Qed.

Lemma empty_fields_rejected_witness :
  let form : Form := {[ lit "title" := lit "  "; lit "body" := lit "World" ]} in
  let db := empty_db in
  create_post (fun _ => []) db (lit "2026-01-01T00:00:00") form
  = (db, Ok fields_required)
  /\ update_post (fun _ => []) (fun text => text) db
       (lit "2026-01-01T00:00:00") 7 form
     = (db, Ok fields_required)
  /\ status_code fields_required = 422
  /\ data fields_required
     = flash_message (lit "Title and body are required.") (lit "error")
  /\ headers fields_required = ∅.
Proof. apply empty_fields_rejected. left. by vm_compute. Defined.

(** C5.  For every form whose title and body are non-empty after trimming,
    Create stores a post under the fresh rowid with the trimmed title and
    body, and Show-single on that id then answers 200 with the single-post
    view of that stored post: its title is the stored title and its
    rendered body is the Markdown transformer applied to the stored body. *)
Theorem create_then_view
  (render_template : Template -> str) (markdown_markdown : str -> str)
  (db : DB) (now : str) (form : Form) :
  stripped_title form <> [] ->
  stripped_body form <> [] ->
  exists db' post,
    create_post render_template db now form
    = (db', Ok (created render_template db'))
    /\ status_code (created render_template db') = 200
    /\ id post = Sql.next_rowid db
    /\ Sql.select_by_id db' (id post) = Some post
    /\ title post = stripped_title form
    /\ body post = stripped_body form
    /\ view_post render_template markdown_markdown db' (id post)
       = (db', Ok (viewed render_template markdown_markdown post))
    /\ status_code (viewed render_template markdown_markdown post) = 200
    /\ data (viewed render_template markdown_markdown post)
       = render_template (Post_html post (markdown_markdown (body post))).
Proof.
  intros Ht Hb.
  destruct (create_post_accepts render_template db now form Ht Hb)
    as (db' & Hins & Hcreate).
  pose proof (select_after_insert db db' _ _ now now Hins) as Hsel.
  exists db', {| id := Sql.next_rowid db; title := stripped_title form;
                 body := stripped_body form;
                 created_at := now; updated_at := now |}.
  cbn [id title body]. repeat (split; [done|]).
  split; [|done]. unfold view_post. by rewrite Hsel.
Qed.

Lemma create_then_view_witness :
  let form : Form := {[ lit "title" := lit " Hello "; lit "body" := lit "World" ]} in
  let now := lit "2026-01-01T00:00:00" in
  let rt : Template -> str := fun _ => [] in
  let md : str -> str := fun text => text in
  exists db' post,
    create_post rt empty_db now form = (db', Ok (created rt db'))
    /\ status_code (created rt db') = 200
    /\ id post = Sql.next_rowid empty_db
    /\ Sql.select_by_id db' (id post) = Some post
    /\ title post = stripped_title form
    /\ body post = stripped_body form
    /\ view_post rt md db' (id post) = (db', Ok (viewed rt md post))
    /\ status_code (viewed rt md post) = 200
    /\ data (viewed rt md post) = rt (Post_html post (md (body post))).
Proof. apply create_then_view; by vm_compute. Defined.

(** C6 as stated fails for an id that does not fit a signed 64-bit
    integer: the route passes 2^63 to [delete_post], the binding of the
    DELETE refuses it, and the request ends in [OverflowError] instead of a
    200 response. *)
Lemma delete_post_id_overflow :
  let rt : Template -> str := fun _ => [] in
  let md : str -> str := fun text => text in
  let post_id := 2 ^ 63 in
  0 <= post_id
  /\ serve rt md empty_db (lit "2026-01-01T00:00:00") (DELETE_post post_id)
     = (empty_db, Raise OverflowError)
  /\ ~ exists r,
        (serve rt md empty_db (lit "2026-01-01T00:00:00")
           (DELETE_post post_id)).2 = Ok r.
Proof.
  cbn zeta. split; [done|]. split; [done|]. by intros [r ?].
Qed.

(** C6, as the code has it.  For every id that fits a signed 64-bit
    integer, stored or not, Delete returns a 200 response that renders the
    list of the store as the DELETE left it (exactly the rows that this
    store holds, in listing order), followed by the success flash; a second
    Delete of the same id returns the same response and the same store; and
    when the id refers to no stored post the store is left as it was. *)
Theorem delete_post_idempotent
  (render_template : Template -> str) (markdown_markdown : str -> str)
  (db : DB) (now now' : str) (post_id : Z) :
  Sqlite3.fits_int64 post_id = true ->
  let db1 := Sql.delete db post_id in
  let r := deleted render_template db1 in
  serve render_template markdown_markdown db now (DELETE_post post_id)
  = (db1, Ok r)
  /\ serve render_template markdown_markdown db1 now' (DELETE_post post_id)
     = (db1, Ok r)
  /\ status_code r = 200
  /\ data r = render_template (Index_html (posts_with_preview db1))
              ++ flash_message (lit "Post deleted.") (lit "success")
  /\ (exists l, posts_with_preview db1 = map with_preview l
                 /\ l ≡ₚ posts db1)
  /\ (rowid_ordered db -> listing_of db1 (posts_with_preview db1))
  /\ posts db1 = filter (fun p => id p <> post_id) (posts db)
  /\ (Sql.select_by_id db post_id = None -> db1 = db).
Proof.
  intros Hfits. cbn zeta. unfold serve. rewrite Hfits. cbn [handle].
  rewrite !delete_post_eq, delete_idempotent.
  split; [done|]. split; [done|]. split; [done|]. split; [done|].
  split; [|split; [|split; [done | apply delete_absent]]].
  - exists (Sql.select_order_by_created_at_desc (Sql.delete db post_id)).
    split; [done | apply select_order_perm].
  - intros Hdb. exists (Sql.select_order_by_created_at_desc (Sql.delete db post_id)).
    split; [done|]. split; [apply select_order_perm|].
    by apply select_order_sorted, rowid_ordered_delete.
Qed.

Lemma delete_post_idempotent_witness :
  let rt : Template -> str := fun _ => [] in
  let md : str -> str := fun text => text in
  let stamp := lit "2026-01-01T00:00:00" in
  let db :=
    {| posts :=
         [ {| id := 1; title := lit "Welcome"; body := lit "# Hello";
              created_at := stamp; updated_at := stamp |};
           {| id := 2; title := lit "Why"; body := lit "HTMX";
              created_at := stamp; updated_at := stamp |} ];
       sqlite_sequence := 2 |} in
  let db1 := Sql.delete db 7 in
  let r := deleted rt db1 in
  map pv_id (posts_with_preview db1) = [1; 2]
  /\ serve rt md db stamp (DELETE_post 7) = (db1, Ok r)
  /\ serve rt md db1 stamp (DELETE_post 7) = (db1, Ok r)
  /\ status_code r = 200
  /\ data r = rt (Index_html (posts_with_preview db1))
              ++ flash_message (lit "Post deleted.") (lit "success")
  /\ (exists l, posts_with_preview db1 = map with_preview l
                 /\ l ≡ₚ posts db1)
  /\ (rowid_ordered db -> listing_of db1 (posts_with_preview db1))
  /\ posts db1 = filter (fun p => id p <> 7) (posts db)
  /\ (Sql.select_by_id db 7 = None -> db1 = db).
Proof.
  intros rt md stamp db db1 r. split; [by vm_compute|].
  by apply (delete_post_idempotent rt md db stamp stamp 7).
Defined.

(** C7 as stated fails for a negative [max_length]: the slice
    [plain[:max_length]] then drops characters from the end of the collapsed
    text instead of keeping its first [max_length] characters. *)
Lemma preview_negative_max_length :
  let body := lit "abcdef" in
  let max_length := -2 in
  let plain := Spec.collapse (Spec.strip_markers body) in
  PyStr.len plain > max_length
  /\ get_post_preview body max_length = lit "abcd..."
  /\ get_post_preview body max_length
     <> take (Z.to_nat max_length) plain ++ lit "..."
  /\ get_post_preview body max_length <> Spec.preview body max_length.
Proof. cbn zeta. repeat split; by vm_compute. Qed.

(** C7, as the code has it.  For every body text and every [max_length]
    that is not negative, the preview is the body with every ['#'], ['*'],
    ['`'] and ['>'] removed, every run of white space collapsed to one space
    and both ends trimmed; when that collapsed text has more than
    [max_length] characters the preview is exactly its first [max_length]
    characters followed by ["..."], otherwise the collapsed text unchanged.
    In particular the preview of ["# Title *bold* `code`"] at 200 is
    ["Title bold code"], and a body whose collapsed form is shorter than 200
    characters is returned collapsed, with no ellipsis. *)
Theorem get_post_preview_spec (body : str) (max_length : Z) :
  0 <= max_length ->
  let plain := Spec.collapse (Spec.strip_markers body) in
  get_post_preview body max_length = Spec.preview body max_length
  /\ (PyStr.len plain > max_length ->
      get_post_preview body max_length
      = take (Z.to_nat max_length) plain ++ lit "..."
      /\ PyStr.len (take (Z.to_nat max_length) plain) = max_length)
  /\ (PyStr.len plain <= max_length ->
      get_post_preview body max_length = plain)
  /\ get_post_preview (lit "# Title *bold* `code`") 200
     = lit "Title bold code"
  /\ (PyStr.len plain < 200 -> get_post_preview body 200 = plain).
Proof.
  intros Hmax plain.
  assert (forall n, 0 <= n ->
            get_post_preview body n
            = if PyStr.len plain >? n
              then take (Z.to_nat n) plain ++ lit "..."
              else plain) as Hcode.
  { intros n Hn. unfold get_post_preview.
    rewrite replace_chain_strip_markers, join_split_collapse.
    fold plain. by rewrite slice_to_take. }
  split; [by apply Hcode|]. split; [|split; [|split]].
  - intros Hlong. rewrite Hcode by done.
    destruct (Z.gtb_spec (PyStr.len plain) max_length) as [_|?]; [|lia].
    split; [done|]. unfold PyStr.len in *. rewrite length_take. lia.
  - intros Hshort. rewrite Hcode by done.
    by destruct (Z.gtb_spec (PyStr.len plain) max_length) as [?|_]; [lia|].
  - by vm_compute.
  - intros Hshort. rewrite Hcode by lia.
    by destruct (Z.gtb_spec (PyStr.len plain) 200) as [?|_]; [lia|].
Qed.

Lemma get_post_preview_spec_witness :
  let body := lit "## Why   HTMX?  > some *quoted* text" in
  let max_length := 12 in
  let plain := Spec.collapse (Spec.strip_markers body) in
  get_post_preview body max_length = lit "Why HTMX? so..."
  /\ get_post_preview body max_length = Spec.preview body max_length
  /\ (PyStr.len plain > max_length ->
      get_post_preview body max_length
      = take (Z.to_nat max_length) plain ++ lit "..."
      /\ PyStr.len (take (Z.to_nat max_length) plain) = max_length)
  /\ (PyStr.len plain <= max_length ->
      get_post_preview body max_length = plain)
  /\ get_post_preview (lit "# Title *bold* `code`") 200
     = lit "Title bold code"
  /\ (PyStr.len plain < 200 -> get_post_preview body 200 = plain).
Proof.
  cbn zeta. split; [by vm_compute|].
  apply (get_post_preview_spec (lit "## Why   HTMX?  > some *quoted* text") 12).
  lia.
Defined.




(** C9.  Whenever a handler returns a response, that response carries the
    header [HX-Push-Url: /] exactly when the request is a Create or a Delete
    and the status is 200, and it carries no header set by the handler
    otherwise (List, the forms, Show single, Update, confirm-delete and every
    404 or 422 answer). *)
Theorem push_url_only_on_create_and_delete
  (render_template : Template -> str) (markdown_markdown : str -> str)
  (db : DB) (now : str) (req : Request) (r : Response) :
  (handle render_template markdown_markdown db now req).2 = Ok r ->
  headers r
  = if is_create_or_delete req && (status_code r =? 200)
    then {[ lit "HX-Push-Url" := lit "/" ]}
    else ∅.
Proof.
  destruct req as [| |form|post_id|post_id|post_id form|post_id|post_id];
    cbn [handle is_create_or_delete andb].
  - by intros [= <-].
  - by intros [= <-].
  - validation_cases form.
    + rewrite (create_post_rejects render_template db now form) by done.
      by intros [= <-].
    + destruct (create_post_accepts render_template db now form)
        as (db' & _ & ->); [done..|].
      by intros [= <-].
  - unfold view_post. destruct (Sql.select_by_id db post_id); by intros [= <-].
  - unfold edit_post. destruct (Sql.select_by_id db post_id); by intros [= <-].
  - validation_cases form.
    + rewrite (update_post_rejects render_template markdown_markdown
                 db now post_id form) by done.
      by intros [= <-].
    + destruct (update_post_accepts render_template markdown_markdown
                  db now post_id form) as (db' & _ & ->); [done..|].
      destruct (Sql.select_by_id db' post_id); [|done]. by intros [= <-].
  - rewrite delete_post_eq. by intros [= <-].
  - unfold confirm_delete.
    destruct (Sql.select_by_id db post_id); by intros [= <-].
Qed.

Lemma push_url_only_on_create_and_delete_witness :
  let form : Form := {[ lit "title" := lit "Hello"; lit "body" := lit "World" ]} in
  let r := created (fun _ => [])
             {| posts := [ {| id := 1; title := lit "Hello"; body := lit "World";
                              created_at := lit "2026-01-01T00:00:00";
                              updated_at := lit "2026-01-01T00:00:00" |} ];
                sqlite_sequence := 1 |} in
  headers r
  = if is_create_or_delete (POST_posts form) && (status_code r =? 200)
    then {[ lit "HX-Push-Url" := lit "/" ]}
    else ∅.
Proof.
  intros form r.
  apply (push_url_only_on_create_and_delete (fun _ => []) (fun text => text)
           empty_db (lit "2026-01-01T00:00:00") (POST_posts form) r).
  by vm_compute.
Defined.

(** C10.  A Create or Update request in which the title or the body field
    is absent from the form reads the absent field as the empty string, so
    it takes the 422 path: the handler returns the error flash (it does not
    raise) and leaves the store as it was. *)
Theorem absent_fields_rejected
  (render_template : Template -> str) (markdown_markdown : str -> str)
  (db : DB) (now : str) (post_id : Z) (form : Form) :
  form !! lit "title" = None \/ form !! lit "body" = None ->
  (form !! lit "title" = None -> form_get form (lit "title") [] = [])
  /\ (form !! lit "body" = None -> form_get form (lit "body") [] = [])
  /\ create_post render_template db now form = (db, Ok fields_required)
  /\ update_post render_template markdown_markdown db now post_id form
     = (db, Ok fields_required)
  /\ status_code fields_required = 422
  /\ data fields_required
     = flash_message (lit "Title and body are required.") (lit "error").
Proof.
  intros H.
  assert (stripped_title form = [] \/ stripped_body form = []) as Hs.
  { unfold stripped_title, stripped_body.
    destruct H as [H|H]; [left | right]; by rewrite form_get_absent. }
  split; [apply form_get_absent|]. split; [apply form_get_absent|].
  split; [by apply create_post_rejects|].
  split; [by apply update_post_rejects|]. done.
Qed.

Lemma absent_fields_rejected_witness :
  let form : Form := {[ lit "title" := lit "Hello" ]} in
  let db := empty_db in
  (form !! lit "title" = None -> form_get form (lit "title") [] = [])
  /\ (form !! lit "body" = None -> form_get form (lit "body") [] = [])
  /\ create_post (fun _ => []) db (lit "2026-01-01T00:00:00") form
     = (db, Ok fields_required)
  /\ update_post (fun _ => []) (fun text => text) db
       (lit "2026-01-01T00:00:00") 7 form
     = (db, Ok fields_required)
  /\ status_code fields_required = 422
  /\ data fields_required
     = flash_message (lit "Title and body are required.") (lit "error").
Proof. apply absent_fields_rejected. right. by vm_compute. Defined.

(** * Further properties of the code *)

(** ** Start-up *)

Section SeedFacts.

Import Sql.

Lemma max_rowid_app (l : list Row) (r : Row) :
  max_rowid (l ++ [r]) = Z.max (max_rowid l) (Z.max (id r) 0).
Proof.
  unfold max_rowid. induction l as [|x l IH]; cbn [foldr app]; [lia|].
  rewrite IH. lia.
Qed.

Lemma max_rowid_nonneg (l : list Row) : 0 <= max_rowid l.
Proof. unfold max_rowid. induction l as [|x l IH]; cbn [foldr]; lia. Qed.

(** After an INSERT the next rowid is one more than the one just given. *)
Lemma next_rowid_insert (db db' : DB) (t b : option str) (c u : str) :
  insert db t b c u = Ok db' -> next_rowid db' = next_rowid db + 1.
Proof.
  destruct t as [t|], b as [b|]; cbn; try done. intros [= <-].
  unfold next_rowid at 1. cbn [posts sqlite_sequence].
  rewrite max_rowid_app. cbn [id].
  pose proof (max_rowid_nonneg (posts db)). unfold next_rowid. lia.
Qed.

(** The seeding loop never fails; it appends one row per sample post, in
    order, under consecutive fresh rowids, each stamped [now] twice. *)
Lemma insert_seeds_appends (seeds : list (str * str)) (db : DB) (now : str) :
  exists db1 rows,
    insert_seeds db now seeds = Ok db1
    /\ posts db1 = posts db ++ rows
    /\ map title rows = map fst seeds
    /\ map body rows = map snd seeds
    /\ Forall (fun r => created_at r = now /\ updated_at r = now) rows
    /\ map id rows
       = map (fun i => next_rowid db + Z.of_nat i) (seq 0 (length seeds))
    /\ next_rowid db1 = next_rowid db + Z.of_nat (length seeds).
Proof.
  revert db. induction seeds as [|p seeds IH]; intros db.
  - exists db, []. cbn. rewrite app_nil_r. repeat split; [constructor | lia].
  - cbn [insert_seeds]. unfold mbind, result_bind.
    destruct (insert db (Some p.1) (Some p.2) now now) as [db0|] eqn:E; [|done].
    pose proof (next_rowid_insert _ _ _ _ _ _ E) as Hnext.
    injection E as <-.
    destruct (IH {| posts := posts db ++
                      [ {| id := next_rowid db; title := p.1; body := p.2;
                           created_at := now; updated_at := now |} ];
                    sqlite_sequence := next_rowid db |})
      as (db1 & rows & Hrun & Hposts & Ht & Hb & Hstamp & Hid & Hn).
    exists db1, ({| id := next_rowid db; title := p.1; body := p.2;
                    created_at := now; updated_at := now |} :: rows).
    split; [exact Hrun|]. cbn [posts] in Hposts.
    split; [by rewrite Hposts, <- app_assoc|].
    cbn [map title body id length seq].
    split; [by rewrite Ht|]. split; [by rewrite Hb|].
    split; [by constructor|]. split.
    + rewrite Hid, Hnext, <- seq_shift, map_map. f_equal; [lia|].
      apply map_ext. intros i. lia.
    + rewrite Hn, Hnext. lia.
Qed.

(** Rows with one and the same created_at come out of the sorter in scan
    order. *)
Lemma sorter_same_key (now : str) (l : list Row) :
  Forall (fun r => created_at r = now) l -> foldr sorter_insert [] l = l.
Proof.
  induction 1 as [|x l Hx Hl IH]; [done|]. cbn [foldr]. rewrite IH.
  destruct l as [|y l]; [done|]. cbn [sorter_insert].
  apply Forall_cons in Hl as [Hy _].
  by rewrite Hx, Hy, text_compare_refl.
Qed.

End SeedFacts.

(** X1.  [init_db] returns a store for every store it is run on, leaves a
    table that already holds posts exactly as it is, returns a table that
    holds at least one post, and running it again on its own result (a
    restart, at any clock reading) changes nothing. *)
Theorem init_db_idempotent (db : DB) (now : str) :
  exists db1,
    init_db db now = Ok db1
    /\ (posts db <> [] -> db1 = db)
    /\ posts db1 <> []
    /\ forall now', init_db db1 now' = Ok db1.
Proof.
  assert (forall d now', posts d <> [] -> init_db d now' = Ok d) as Hkeep.
  { intros d now' Hd. unfold init_db, Sql.count.
    destruct (posts d); [done|]. done. }
  destruct (posts db) as [|r l] eqn:Hposts.
  - destruct (insert_seeds_appends seed_posts db now)
      as (db1 & rows & Hrun & Hp & Ht & _).
    assert (posts db1 <> []) as Hne.
    { rewrite Hp, Hposts. cbn. intros ->. cbv in Ht. discriminate Ht. }
    exists db1. unfold init_db, Sql.count. rewrite Hposts. cbn [length].
    split; [exact Hrun|]. split; [done|]. split; [done|].
    intros now'. by apply Hkeep.
  - exists db. assert (posts db <> []) as Hne by (by rewrite Hposts).
    split; [by apply Hkeep|]. split; [done|]. split; [done|].
    intros now'. by apply Hkeep.
Qed.

(** X2.  On a table without rows (a new file, or one whose posts were all
    deleted), [init_db] stores exactly the three sample posts, in their
    order, under the next three rowids, with created_at and updated_at both
    set to the one clock reading; the list then shows them in that same
    order. *)
Theorem init_db_seeds_empty_table (db : DB) (now : str) :
  posts db = [] ->
  let n := Sql.next_rowid db in
  exists db1,
    init_db db now = Ok db1
    /\ map id (posts db1) = [n; n + 1; n + 2]
    /\ map title (posts db1) = map fst seed_posts
    /\ map body (posts db1) = map snd seed_posts
    /\ Forall (fun r => created_at r = now /\ updated_at r = now) (posts db1)
    /\ Sql.next_rowid db1 = n + 3
    /\ map pv_id (posts_with_preview db1) = [n; n + 1; n + 2].
Proof.
  intros Hposts n.
  destruct (insert_seeds_appends seed_posts db now)
    as (db1 & rows & Hrun & Hp & Ht & Hb & Hstamp & Hid & Hn).
  rewrite Hposts in Hp. cbn [app] in Hp.
  exists db1. unfold init_db, Sql.count. rewrite Hposts. cbn [length].
  split; [exact Hrun|]. rewrite Hp.
  assert (map id rows = [n; n + 1; n + 2]) as Hids.
  { rewrite Hid. change (length seed_posts) with 3%nat. cbn [seq map].
    subst n. repeat (f_equal; try lia). }
  split; [exact Hids|]. split; [exact Ht|]. split; [exact Hb|].
  split; [exact Hstamp|]. split; [exact Hn|].
  unfold posts_with_preview, Sql.select_order_by_created_at_desc.
  rewrite Hp, (sorter_same_key now).
  - rewrite map_map. exact Hids.
  - eapply Forall_impl; [exact Hstamp|]. by intros r [? _].
Qed.

Lemma init_db_seeds_empty_table_witness :
  let now := lit "2026-01-01T00:00:00" in
  exists db1,
    init_db empty_db now = Ok db1
    /\ map id (posts db1) = [1; 2; 3]
    /\ map title (posts db1) = map fst seed_posts
    /\ map body (posts db1) = map snd seed_posts
    /\ Forall (fun r => created_at r = now /\ updated_at r = now) (posts db1)
    /\ Sql.next_rowid db1 = 4
    /\ map pv_id (posts_with_preview db1) = [1; 2; 3].
Proof. apply (init_db_seeds_empty_table empty_db). reflexivity. Defined.

(** ** What a request can and cannot do *)

(** X3.  A GET request never changes the store, whether it is answered
    or ends in an exception; a response that it returns has status 200 or
    404 and carries no header set by the handler. *)
Theorem get_requests_are_safe
  (render_template : Template -> str) (markdown_markdown : str -> str)
  (db : DB) (now : str) (req : Request) :
  is_get req = true ->
  (serve render_template markdown_markdown db now req).1 = db
  /\ forall r,
       (serve render_template markdown_markdown db now req).2 = Ok r ->
       headers r = ∅ /\ (status_code r = 200 \/ status_code r = 404).
Proof.
  destruct req as [| |form|post_id|post_id|post_id form|post_id|post_id];
    try done; intros _; unfold serve;
    try (destruct (Sqlite3.fits_int64 post_id); [|by split]); cbn [handle].
  - split; [done|]. intros r [= <-]. split; [done | by left].
  - split; [done|]. intros r [= <-]. split; [done | by left].
  - unfold view_post. destruct (Sql.select_by_id db post_id);
      (split; [done|]; intros ? [= <-]; split; [done|]);
      [by left | by right].
  - unfold edit_post. destruct (Sql.select_by_id db post_id);
      (split; [done|]; intros ? [= <-]; split; [done|]);
      [by left | by right].
  - unfold confirm_delete. destruct (Sql.select_by_id db post_id);
      (split; [done|]; intros ? [= <-]; split; [done|]);
      [by left | by right].
Qed.

Lemma get_requests_are_safe_witness :
  let rt : Template -> str := fun _ => [] in
  let md : str -> str := fun text => text in
  let now := lit "2026-01-01T00:00:00" in
  serve rt md empty_db now (GET_post_edit 5) = (empty_db, Ok post_not_found)
  /\ (serve rt md empty_db now (GET_post_edit 5)).1 = empty_db
  /\ forall r,
       (serve rt md empty_db now (GET_post_edit 5)).2 = Ok r ->
       headers r = ∅ /\ (status_code r = 200 \/ status_code r = 404).
Proof. split; [done|]. by apply get_requests_are_safe. Defined.

(** X5.  A request that is answered with a status other than 200 has left
    the store exactly as it was, and its response is one of the two error
    flashes alone, 404 "Post not found." or 422 "Title and body are
    required.", without any header set by the handler. *)
Theorem failed_requests_leave_store
  (render_template : Template -> str) (markdown_markdown : str -> str)
  (db : DB) (now : str) (req : Request) (r : Response) :
  (serve render_template markdown_markdown db now req).2 = Ok r ->
  status_code r <> 200 ->
  (serve render_template markdown_markdown db now req).1 = db
  /\ headers r = ∅
  /\ ((status_code r = 404
       /\ data r = flash_message (lit "Post not found.") (lit "error"))
      \/ (status_code r = 422
          /\ data r = flash_message (lit "Title and body are required.")
                        (lit "error"))).
Proof.
  destruct req as [| |form|post_id|post_id|post_id form|post_id|post_id];
    unfold serve;
    try (destruct (Sqlite3.fits_int64 post_id); [|done]); cbn [handle].
  - by intros [= <-].
  - by intros [= <-].
  - validation_cases form.
    + rewrite (create_post_rejects render_template db now form) by done.
      intros [= <-] _. split; [done|]. split; [done|]. by right.
    + destruct (create_post_accepts render_template db now form)
        as (db' & _ & ->); [done..|]. by intros [= <-].
  - unfold view_post. destruct (Sql.select_by_id db post_id);
      intros [= <-]; [done|].
    intros _. split; [done|]. split; [done|]. by left.
  - unfold edit_post. destruct (Sql.select_by_id db post_id);
      intros [= <-]; [done|].
    intros _. split; [done|]. split; [done|]. by left.
  - validation_cases form.
    + assert (PyStr.is_empty (stripped_title form)
              || PyStr.is_empty (stripped_body form) = true) as ->.
      { destruct Hempty as [-> | ->]; [done | by rewrite orb_true_r]. }
      rewrite (update_post_rejects render_template markdown_markdown
                 db now post_id form) by done.
      intros [= <-] _. split; [done|]. split; [done|]. by right.
    + destruct (PyStr.is_empty (stripped_title form)
                || PyStr.is_empty (stripped_body form));
        [|destruct (Sqlite3.fits_int64 post_id); [|done]];
        (destruct (update_post_accepts render_template markdown_markdown
                     db now post_id form) as (db' & Hupd & ->); [done..|];
         destruct (Sql.select_by_id db' post_id); [|done];
         by intros [= <-]).
  - rewrite delete_post_eq. by intros [= <-].
  - unfold confirm_delete. destruct (Sql.select_by_id db post_id);
      intros [= <-]; [done|].
    intros _. split; [done|]. split; [done|]. by left.
Qed.

Lemma failed_requests_leave_store_witness :
  let rt : Template -> str := fun _ => [] in
  let md : str -> str := fun text => text in
  let now := lit "2026-01-01T00:00:00" in
  let form : Form := {[ lit "title" := lit "Hello" ]} in
  let req := PUT_post (2 ^ 63) form in
  (serve rt md empty_db now req).2 = Ok fields_required
  /\ (serve rt md empty_db now req).1 = empty_db
  /\ headers fields_required = ∅
  /\ ((status_code fields_required = 404
       /\ data fields_required
          = flash_message (lit "Post not found.") (lit "error"))
      \/ (status_code fields_required = 422
          /\ data fields_required
             = flash_message (lit "Title and body are required.")
                 (lit "error"))).
Proof.
  intros rt md now form req. split; [by vm_compute|].
  apply (failed_requests_leave_store rt md empty_db now req); by vm_compute.
Defined.

(** X6.  Once a post is deleted its pages are gone: after Delete of an id
    that fits a signed 64-bit integer, Show single, Show edit form and the
    Confirm-delete prompt for that id all answer 404 with the "Post not
    found." error flash, whatever the store held before. *)
Theorem deleted_post_not_found
  (render_template : Template -> str) (markdown_markdown : str -> str)
  (db : DB) (now now' : str) (post_id : Z) :
  Sqlite3.fits_int64 post_id = true ->
  let db1 :=
    (serve render_template markdown_markdown db now (DELETE_post post_id)).1 in
  Sql.select_by_id db1 post_id = None
  /\ serve render_template markdown_markdown db1 now' (GET_post post_id)
     = (db1, Ok post_not_found)
  /\ serve render_template markdown_markdown db1 now' (GET_post_edit post_id)
     = (db1, Ok post_not_found)
  /\ serve render_template markdown_markdown db1 now'
       (GET_post_confirm_delete post_id)
     = (db1, Ok post_not_found)
  /\ status_code post_not_found = 404
  /\ data post_not_found = flash_message (lit "Post not found.") (lit "error").
Proof.
  intros Hfits. cbn zeta. unfold serve. rewrite Hfits. cbn [handle].
  rewrite delete_post_eq. cbn [fst].
  unfold view_post, edit_post, confirm_delete.
  by rewrite select_after_delete.
Qed.

Lemma deleted_post_not_found_witness :
  let rt : Template -> str := fun _ => [] in
  let md : str -> str := fun text => text in
  let now := lit "2026-01-01T00:00:00" in
  let seeded :=
    match init_db empty_db now with Ok db => db | Raise _ => empty_db end in
  let db1 := (serve rt md seeded now (DELETE_post 2)).1 in
  map id (posts db1) = [1; 3]
  /\ Sql.select_by_id db1 2 = None
  /\ serve rt md db1 now (GET_post 2) = (db1, Ok post_not_found)
  /\ serve rt md db1 now (GET_post_edit 2) = (db1, Ok post_not_found)
  /\ serve rt md db1 now (GET_post_confirm_delete 2)
     = (db1, Ok post_not_found)
  /\ status_code post_not_found = 404
  /\ data post_not_found = flash_message (lit "Post not found.") (lit "error").
Proof.
  intros rt md now seeded db1. split; [by vm_compute|].
  by apply (deleted_post_not_found rt md seeded now now 2).
Defined.

(** ** Ids *)

Section IdFacts.

Import Sql.

Lemma ids_bounded_next (db : DB) :
  ids_bounded db -> next_rowid db = sqlite_sequence db + 1.
Proof.
  intros [Hseq Hids]. unfold next_rowid.
  assert (max_rowid (posts db) <= sqlite_sequence db); [|lia].
  unfold max_rowid. induction Hids as [|r l Hr _ IH]; cbn [foldr]; lia.
Qed.

Lemma ids_bounded_insert (db db' : DB) (t b : option str) (c u : str) :
  ids_bounded db -> insert db t b c u = Ok db' -> ids_bounded db'.
Proof.
  intros Hdb. pose proof (ids_bounded_next db Hdb) as Hnext.
  destruct Hdb as [Hseq Hids].
  destruct t as [t|], b as [b|]; cbn; try done. intros [= <-].
  split; cbn [posts sqlite_sequence]; [lia|].
  apply Forall_app. split.
  - eapply Forall_impl; [exact Hids|]. cbn. intros r ?. lia.
  - repeat constructor; cbn; lia.
Qed.

Lemma ids_bounded_update (db db' : DB) (t b : option str) (u : str)
  (post_id : Z) :
  ids_bounded db -> update db t b u post_id = Ok db' -> ids_bounded db'.
Proof.
  intros [Hseq Hids]. unfold update.
  destruct t as [t|], b as [b|];
    try (destruct (existsb _ _); [done|]; by intros [= <-]).
  intros [= <-]. split; [done|]. cbn [posts sqlite_sequence].
  induction Hids as [|r l Hr _ IH]; cbn [map]; constructor; [|done].
  by rewrite set_fields_id.
Qed.

Lemma ids_bounded_delete (db : DB) (post_id : Z) :
  ids_bounded db -> ids_bounded (delete db post_id).
Proof.
  intros [Hseq Hids]. split; [done|]. cbn [delete posts sqlite_sequence].
  apply Forall_forall. intros r [_ Hr]%list_elem_of_filter.
  by apply (proj1 (Forall_forall _ _) Hids).
Qed.

Lemma ids_bounded_seeds (seeds : list (str * str)) (db db' : DB) (now : str) :
  ids_bounded db -> insert_seeds db now seeds = Ok db' -> ids_bounded db'.
Proof.
  revert db. induction seeds as [|p seeds IH]; intros db Hdb.
  - by intros [= <-].
  - cbn [insert_seeds]. unfold mbind, result_bind.
    destruct (insert db (Some p.1) (Some p.2) now now) as [db1|] eqn:E; [|done].
    apply IH. by eapply ids_bounded_insert.
Qed.

Lemma ids_bounded_init_db (db db' : DB) (now : str) :
  ids_bounded db -> init_db db now = Ok db' -> ids_bounded db'.
Proof.
  unfold init_db. intros Hdb. destruct (count db =? 0).
  - by apply ids_bounded_seeds.
  - by intros [= <-].
Qed.

(** Where the rowids increase along the table, a stored row is the one its
    id selects. *)
Lemma select_stored_row (db : DB) (r : Row) :
  rowid_ordered db -> r ∈ posts db -> select_by_id db (id r) = Some r.
Proof.
  unfold rowid_ordered, select_by_id.
  induction (posts db) as [|x l IH]; [by intros _ ?%elem_of_nil|].
  cbn [map find]. intros [Hx Hl]%StronglySorted_cons Hr.
  apply elem_of_cons in Hr as [-> | Hr]; [by rewrite Z.eqb_refl|].
  assert (id x < id r) as Hlt.
  { apply (proj1 (Forall_forall _ _) Hx), list_elem_of_In, in_map.
    by apply list_elem_of_In. }
  apply Z.lt_neq, Z.eqb_neq in Hlt. rewrite Hlt. by apply IH.
Qed.

Lemma filter_keeps_all (post_id : Z) (l : list Row) :
  Forall (fun r => id r <> post_id) l ->
  filter (fun r => id r <> post_id) l = l.
Proof.
  induction 1 as [|r l Hr _ IH]; [done|].
  by rewrite filter_cons_True, IH.
Qed.

End IdFacts.

Lemma ids_bounded_handle
  (render_template : Template -> str) (markdown_markdown : str -> str)
  (db : DB) (now : str) (req : Request) :
  ids_bounded db ->
  ids_bounded (handle render_template markdown_markdown db now req).1.
Proof.
  intros Hdb.
  destruct (handle_store render_template markdown_markdown db now req)
    as [-> | [(t & b & ? & ? & Hins) | [(t & b & p & ? & ? & Hupd) | [p ->]]]].
  - done.
  - by eapply ids_bounded_insert.
  - by eapply ids_bounded_update.
  - by apply ids_bounded_delete.
Qed.

Lemma sequence_handle
  (render_template : Template -> str) (markdown_markdown : str -> str)
  (db : DB) (now : str) (req : Request) :
  ids_bounded db ->
  sqlite_sequence db
  <= sqlite_sequence (handle render_template markdown_markdown db now req).1.
Proof.
  intros Hdb. pose proof (ids_bounded_next db Hdb) as Hnext.
  destruct (handle_store render_template markdown_markdown db now req)
    as [-> | [(t & b & ? & ? & Hins) | [(t & b & p & ? & ? & Hupd) | [p ->]]]].
  - done.
  - injection Hins as <-. cbn. lia.
  - by injection Hupd as <-.
  - done.
Qed.

(** X7.  In every state that the application reaches, the stored ids are
    positive, pairwise distinct and increasing along the table, none
    exceeds the AUTOINCREMENT counter, each stored row is the one that a
    lookup of its id returns, the next rowid is the counter plus one (above
    every stored id), and no request lowers the counter. *)
Theorem reachable_ids
  (render_template : Template -> str) (markdown_markdown : str -> str)
  (db : DB) :
  reachable render_template markdown_markdown db ->
  rowid_ordered db
  /\ ids_bounded db
  /\ NoDup (map id (posts db))
  /\ (forall r, r ∈ posts db -> Sql.select_by_id db (id r) = Some r)
  /\ Sql.next_rowid db = sqlite_sequence db + 1
  /\ forall now req,
       sqlite_sequence db
       <= sqlite_sequence
            (handle render_template markdown_markdown db now req).1.
Proof.
  intros Hrun.
  assert (rowid_ordered db /\ ids_bounded db) as [Hord Hids].
  { induction Hrun as [now db Hinit | db now req _ [IH1 IH2]
                      | db now db' _ [IH1 IH2] Hinit].
    - split.
      + apply (rowid_ordered_init_db empty_db db now); [constructor | done].
      + apply (ids_bounded_init_db empty_db db now); [|done].
        split; [done | constructor].
    - split; [by apply rowid_ordered_handle | by apply ids_bounded_handle].
    - split.
      + by apply (rowid_ordered_init_db db db' now).
      + by apply (ids_bounded_init_db db db' now). }
  split; [done|]. split; [done|]. split.
  { unfold rowid_ordered in Hord.
    induction Hord as [|x l _ IH Hx]; constructor; [|done].
    intros Hin.
    pose proof (proj1 (Forall_forall _ _) Hx _ Hin). lia. }
  split; [intros r; by apply select_stored_row|].
  split; [by apply ids_bounded_next|].
  intros now req. by apply sequence_handle.
Qed.

Lemma reachable_ids_witness :
  let rt : Template -> str := fun _ => [] in
  let md : str -> str := fun text => text in
  let now := lit "2026-01-01T00:00:00" in
  let seeded :=
    match init_db empty_db now with Ok db => db | Raise _ => empty_db end in
  let db := (handle rt md seeded now (DELETE_post 3)).1 in
  map id (posts db) = [1; 2]
  /\ sqlite_sequence db = 3
  /\ rowid_ordered db
  /\ ids_bounded db
  /\ NoDup (map id (posts db))
  /\ (forall r, r ∈ posts db -> Sql.select_by_id db (id r) = Some r)
  /\ Sql.next_rowid db = sqlite_sequence db + 1
  /\ forall now req,
       sqlite_sequence db <= sqlite_sequence (handle rt md db now req).1.
Proof.
  intros rt md now seeded db. split; [by vm_compute|]. split; [by vm_compute|].
  apply (reachable_ids rt md).
  apply reachable_request. apply (reachable_new rt md now). by vm_compute.
Defined.

(** X8.  Create followed by Delete of the post just created gives back the
    posts table as it was before the Create; only the AUTOINCREMENT counter
    has moved on, so the id of the deleted post is not given out again. *)
Theorem create_then_delete_restores
  (render_template : Template -> str) (db : DB) (now : str) (form : Form) :
  stripped_title form <> [] ->
  stripped_body form <> [] ->
  let db1 := (create_post render_template db now form).1 in
  let db2 := (delete_post render_template db1 (Sql.next_rowid db)).1 in
  Sql.select_by_id db1 (Sql.next_rowid db) <> None
  /\ posts db2 = posts db
  /\ posts_with_preview db2 = posts_with_preview db
  /\ sqlite_sequence db2 = Sql.next_rowid db
  /\ Sql.next_rowid db2 = Sql.next_rowid db + 1.
Proof.
  intros Ht Hb.
  destruct (create_post_accepts render_template db now form Ht Hb)
    as (db' & Hins & ->).
  cbn zeta. rewrite delete_post_eq. cbn [fst].
  split; [by rewrite (select_after_insert db db' _ _ now now Hins)|].
  pose proof (next_rowid_insert _ _ _ _ _ _ Hins) as Hnext.
  injection Hins as <-.
  assert (filter (fun r => id r <> Sql.next_rowid db)
            (posts db ++ [ {| id := Sql.next_rowid db;
                              title := stripped_title form;
                              body := stripped_body form;
                              created_at := now; updated_at := now |} ])
          = posts db) as Hposts.
  { rewrite filter_app, filter_cons_False by (cbn; tauto).
    rewrite filter_nil, app_nil_r. apply filter_keeps_all.
    apply Forall_forall. intros r Hr%next_rowid_fresh. lia. }
  cbn [Sql.delete posts sqlite_sequence]. split; [exact Hposts|].
  split.
  { unfold posts_with_preview, Sql.select_order_by_created_at_desc.
    cbn [Sql.delete posts]. by rewrite Hposts. }
  split; [done|].
  unfold Sql.next_rowid at 1. cbn [posts sqlite_sequence Sql.delete].
  rewrite Hposts. fold (Sql.next_rowid db).
  pose proof (Sql.max_rowid (posts db)) as m.
  unfold Sql.next_rowid. lia.
Qed.

Lemma create_then_delete_restores_witness :
  let rt : Template -> str := fun _ => [] in
  let now := lit "2026-01-01T00:00:00" in
  let form : Form := {[ lit "title" := lit "Hello"; lit "body" := lit "World" ]} in
  let db1 := (create_post rt empty_db now form).1 in
  let db2 := (delete_post rt db1 (Sql.next_rowid empty_db)).1 in
  Sql.select_by_id db1 (Sql.next_rowid empty_db) <> None
  /\ posts db2 = posts empty_db
  /\ posts_with_preview db2 = posts_with_preview empty_db
  /\ sqlite_sequence db2 = Sql.next_rowid empty_db
  /\ Sql.next_rowid db2 = Sql.next_rowid empty_db + 1.
Proof. apply create_then_delete_restores; by vm_compute. Defined.

(** ** The listing under Update, Delete and Create *)

Section ListingFacts.

Import Sql.

(** A change of rows that keeps created_at commutes with the sorter. *)
Lemma sorter_insert_map (f : Row -> Row) (x : Row) (l : list Row) :
  (forall r, created_at (f r) = created_at r) ->
  sorter_insert (f x) (map f l) = map f (sorter_insert x l).
Proof.
  intros Hf. induction l as [|y l IH]; [done|].
  cbn [map sorter_insert]. rewrite !Hf.
  destruct (text_compare (created_at y) (created_at x)); try done.
  cbn [map]. by rewrite IH.
Qed.

Lemma sorter_map (f : Row -> Row) (l : list Row) :
  (forall r, created_at (f r) = created_at r) ->
  foldr sorter_insert [] (map f l) = map f (foldr sorter_insert [] l).
Proof.
  intros Hf. induction l as [|x l IH]; [done|].
  cbn [map foldr]. by rewrite IH, sorter_insert_map.
Qed.

Lemma set_fields_created_at (t b u : str) (post_id : Z) (r : Row) :
  created_at (set_fields t b u post_id r) = created_at r.
Proof. unfold set_fields. by destruct (id r =? post_id). Qed.

(** The keys of a sorted list never increase. *)
Lemma sorter_insert_keys (x : Row) (l : list Row) :
  StronglySorted (fun a b => text_le (created_at b) (created_at a)) l ->
  StronglySorted (fun a b => text_le (created_at b) (created_at a))
    (sorter_insert x l).
Proof.
  intros Hs. induction Hs as [|y l Hs IH Hy]; cbn [sorter_insert].
  - repeat constructor.
  - destruct (text_compare (created_at y) (created_at x)) eqn:E.
    + assert (text_le (created_at y) (created_at x)) as Hyx.
      { unfold text_le. by rewrite E. }
      constructor; [by constructor|]. constructor; [done|].
      eapply Forall_impl; [exact Hy|]. cbn. intros z Hz.
      by apply (text_le_trans _ (created_at y)).
    + assert (text_le (created_at y) (created_at x)) as Hyx.
      { unfold text_le. by rewrite E. }
      constructor; [by constructor|]. constructor; [done|].
      eapply Forall_impl; [exact Hy|]. cbn. intros z Hz.
      by apply (text_le_trans _ (created_at y)).
    + constructor; [done|]. rewrite sorter_insert_perm.
      constructor; [|done]. unfold text_le.
      rewrite (text_compare_antisym (created_at y)), E. done.
Qed.

Lemma sorter_keys (l : list Row) :
  StronglySorted (fun a b => text_le (created_at b) (created_at a))
    (foldr sorter_insert [] l).
Proof.
  induction l as [|x l IH]; [constructor|]. by apply sorter_insert_keys.
Qed.

Lemma sorter_insert_front (x : Row) (l : list Row) :
  Forall (fun z => text_le (created_at z) (created_at x)) l ->
  sorter_insert x l = x :: l.
Proof.
  destruct 1 as [|y l Hy _]; [done|]. cbn [sorter_insert].
  unfold text_le in Hy.
  by destruct (text_compare (created_at y) (created_at x)).
Qed.

(** Dropping the rows of one id commutes with the sorter. *)
Lemma sorter_insert_filter (post_id : Z) (x : Row) (l : list Row) :
  StronglySorted (fun a b => text_le (created_at b) (created_at a)) l ->
  filter (fun r => id r <> post_id) (sorter_insert x l)
  = if decide (id x <> post_id)
    then sorter_insert x (filter (fun r => id r <> post_id) l)
    else filter (fun r => id r <> post_id) l.
Proof.
  intros Hs. induction Hs as [|y l Hs IH Hy]; cbn [sorter_insert].
  - rewrite filter_nil. destruct (decide (id x <> post_id)).
    + by rewrite filter_cons_True.
    + by rewrite filter_cons_False.
  - destruct (text_compare (created_at y) (created_at x)) eqn:E.
    1,2: assert (text_le (created_at y) (created_at x)) as Hyx
           by (unfold text_le; by rewrite E);
         destruct (decide (id x <> post_id));
           [rewrite filter_cons_True by done; symmetry;
            apply sorter_insert_front, Forall_forall;
            intros z [_ Hz]%list_elem_of_filter;
            apply elem_of_cons in Hz as [-> | Hz]; [done|];
            apply (text_le_trans _ (created_at y)); [|done];
            by apply (proj1 (Forall_forall _ _) Hy)
           |by rewrite filter_cons_False by done].
    destruct (decide (id y <> post_id)).
    + rewrite !(filter_cons_True _ y) by done. rewrite IH.
      destruct (decide (id x <> post_id)); [|done].
      cbn [sorter_insert]. by rewrite E.
    + rewrite !(filter_cons_False _ y) by done. exact IH.
Qed.

Lemma sorter_filter (post_id : Z) (l : list Row) :
  foldr sorter_insert [] (filter (fun r => id r <> post_id) l)
  = filter (fun r => id r <> post_id) (foldr sorter_insert [] l).
Proof.
  induction l as [|x l IH]; [done|]. cbn [foldr].
  rewrite sorter_insert_filter by apply sorter_keys.
  destruct (decide (id x <> post_id)).
  - rewrite filter_cons_True by done. cbn [foldr]. by rewrite IH.
  - by rewrite filter_cons_False.
Qed.

Lemma with_preview_filter (post_id : Z) (l : list Row) :
  map with_preview (filter (fun r => id r <> post_id) l)
  = filter (fun v => pv_id v <> post_id) (map with_preview l).
Proof.
  induction l as [|x l IH]; [done|]. cbn [map].
  destruct (decide (id x <> post_id)).
  - rewrite !filter_cons_True by done. cbn [map]. by rewrite IH.
  - by rewrite !filter_cons_False.
Qed.

(** A row later than every sorted row goes to the front. *)
Lemma sorter_newest (x : Row) (l : list Row) :
  Forall (fun r => text_compare (created_at x) (created_at r) = Gt) l ->
  foldr sorter_insert [x] l = x :: foldr sorter_insert [] l.
Proof.
  induction 1 as [|y l Hy _ IH]; [done|]. cbn [foldr]. rewrite IH.
  cbn [sorter_insert]. by rewrite Hy.
Qed.

End ListingFacts.

(** X9.  An Update never moves a post in the list: whatever the request
    (accepted, rejected with 422, or aimed at an id that is not stored),
    the list shows the same ids in the same order, with the same
    created_at, before and after it. *)
Theorem update_keeps_listing_order
  (render_template : Template -> str) (markdown_markdown : str -> str)
  (db : DB) (now : str) (post_id : Z) (form : Form) :
  let db' :=
    (update_post render_template markdown_markdown db now post_id form).1 in
  map pv_id (posts_with_preview db') = map pv_id (posts_with_preview db)
  /\ map pv_created_at (posts_with_preview db')
     = map pv_created_at (posts_with_preview db).
Proof.
  cbn zeta. validation_cases form.
  - by rewrite (update_post_rejects render_template markdown_markdown
                  db now post_id form).
  - destruct (update_post_accepts render_template markdown_markdown
                db now post_id form) as (db' & Hupd & ->); [done..|].
    assert ((match Sql.select_by_id db' post_id with
             | None => (db', Raise TypeError)
             | Some post =>
                 (db', Ok (updated render_template markdown_markdown post))
             end).1 = db') as -> by (by destruct (Sql.select_by_id db' post_id)).
    injection Hupd as <-.
    unfold posts_with_preview, Sql.select_order_by_created_at_desc.
    cbn [posts]. rewrite sorter_map by apply set_fields_created_at.
    rewrite !map_map. split; apply map_ext; intros r; cbn.
    + apply set_fields_id.
    + apply set_fields_created_at.
Qed.

(** X10.  Delete takes the deleted post, and nothing else, out of the
    list: the list after Delete of an id is the list before it without the
    entries of that id, the remaining posts in the order they had. *)
Theorem delete_removes_from_listing
  (render_template : Template -> str) (db : DB) (post_id : Z) :
  posts_with_preview (delete_post render_template db post_id).1
  = filter (fun v => pv_id v <> post_id) (posts_with_preview db).
Proof.
  rewrite delete_post_eq. cbn [fst].
  unfold posts_with_preview, Sql.select_order_by_created_at_desc.
  cbn [Sql.delete posts]. by rewrite sorter_filter, with_preview_filter.
Qed.

(** X11.  A post created at a clock reading later than the created_at of
    every stored post is shown first: the list after the Create is the new
    post, with its trimmed title and the preview of its trimmed body,
    followed by the list as it was. *)
Theorem create_lists_newest_first
  (render_template : Template -> str) (db : DB) (now : str) (form : Form) :
  stripped_title form <> [] ->
  stripped_body form <> [] ->
  Forall (fun r => Sql.text_compare now (created_at r) = Gt) (posts db) ->
  exists new,
    posts_with_preview (create_post render_template db now form).1
    = new :: posts_with_preview db
    /\ pv_id new = Sql.next_rowid db
    /\ pv_title new = stripped_title form
    /\ pv_body new = stripped_body form
    /\ pv_preview new = get_post_preview (stripped_body form) 200
    /\ pv_created_at new = now
    /\ pv_updated_at new = now.
Proof.
  intros Ht Hb Hlater.
  destruct (create_post_accepts render_template db now form Ht Hb)
    as (db' & Hins & ->).
  injection Hins as <-. cbn [fst].
  exists (with_preview {| id := Sql.next_rowid db;
                           title := stripped_title form;
                           body := stripped_body form;
                           created_at := now; updated_at := now |}).
  split; [|done].
  unfold posts_with_preview, Sql.select_order_by_created_at_desc.
  cbn [posts]. rewrite foldr_app. cbn [foldr Sql.sorter_insert].
  by rewrite sorter_newest.
Qed.

Lemma create_lists_newest_first_witness :
  let rt : Template -> str := fun _ => [] in
  let stamp := lit "2026-01-01T00:00:00" in
  let db := {| posts := [ {| id := 1; title := lit "Welcome";
                             body := lit "# Hello";
                             created_at := stamp; updated_at := stamp |} ];
               sqlite_sequence := 1 |} in
  let now := lit "2026-01-02T09:00:00" in
  let form : Form := {[ lit "title" := lit "Later"; lit "body" := lit "*News*" ]} in
  exists new,
    posts_with_preview (create_post rt db now form).1
    = new :: posts_with_preview db
    /\ pv_id new = Sql.next_rowid db
    /\ pv_title new = stripped_title form
    /\ pv_body new = stripped_body form
    /\ pv_preview new = get_post_preview (stripped_body form) 200
    /\ pv_created_at new = now
    /\ pv_updated_at new = now.
Proof.
  apply create_lists_newest_first; [by vm_compute | by vm_compute |].
  repeat constructor.
Defined.

(** ** What the stored rows look like *)

Section TrimFacts.

Import PyStr.

Lemma lstrip_idempotent (s : str) : lstrip (lstrip s) = lstrip s.
Proof. apply lstrip_no_space, lstrip_starts. Qed.

Lemma rstrip_idempotent (s : str) : rstrip (rstrip s) = rstrip s.
Proof. unfold rstrip. by rewrite rev_involutive, lstrip_idempotent. Qed.

Lemma rstrip_starts (s : str) :
  starts_with_space s = false -> starts_with_space (rstrip s) = false.
Proof.
  destruct s as [|c s]; [done|]. rewrite rstrip_cons.
  by destruct (forallb isspace (c :: s)).
Qed.

(** [strip()] of a stripped string changes nothing. *)
Lemma strip_idempotent (s : str) : strip (strip s) = strip s.
Proof.
  unfold strip.
  rewrite (lstrip_no_space (rstrip (lstrip s)))
    by apply rstrip_starts, lstrip_starts.
  apply rstrip_idempotent.
Qed.

End TrimFacts.

Section RowFacts.

Variable render_template : Template -> str.
Variable markdown_markdown : str -> str.

(** What a request does to the store, with the form that the written
    fields come from. *)
Lemma handle_store_form (db : DB) (now : str) (req : Request) :
  let db' := (handle render_template markdown_markdown db now req).1 in
  db' = db
  \/ (exists form,
        Sql.insert db (Some (stripped_title form)) (Some (stripped_body form))
          now now = Ok db')
  \/ (exists form post_id,
        Sql.update db (Some (stripped_title form)) (Some (stripped_body form))
          now post_id = Ok db')
  \/ (exists post_id, db' = Sql.delete db post_id).
Proof.
  destruct req as [| |form|post_id|post_id|post_id form|post_id|post_id];
    cbn [handle].
  - by left.
  - by left.
  - validation_cases form.
    + left. by rewrite create_post_rejects.
    + destruct (create_post_accepts render_template db now form)
        as (db' & Hins & ->); [done..|].
      right; left. by exists form.
  - left. unfold view_post. by destruct (Sql.select_by_id db post_id).
  - left. unfold edit_post. by destruct (Sql.select_by_id db post_id).
  - validation_cases form.
    + left. by rewrite update_post_rejects.
    + destruct (update_post_accepts render_template markdown_markdown
                  db now post_id form) as (db' & Hupd & ->); [done..|].
      right; right; left. exists form, post_id.
      by destruct (Sql.select_by_id db' post_id).
  - right; right; right. by exists post_id.
  - left. unfold confirm_delete. by destruct (Sql.select_by_id db post_id).
Qed.

Lemma fields_trimmed_insert (db db' : DB) (t b c u : str) :
  PyStr.strip t = t -> PyStr.strip b = b ->
  fields_trimmed db -> Sql.insert db (Some t) (Some b) c u = Ok db' ->
  fields_trimmed db'.
Proof.
  unfold fields_trimmed. intros Ht Hb Hdb [= <-]. cbn [posts].
  apply Forall_app. split; [done|]. by repeat constructor.
Qed.

Lemma fields_trimmed_seeds (seeds : list (str * str)) (db db' : DB) (now : str) :
  Forall (fun p => PyStr.strip p.1 = p.1 /\ PyStr.strip p.2 = p.2) seeds ->
  fields_trimmed db -> insert_seeds db now seeds = Ok db' ->
  fields_trimmed db'.
Proof.
  intros Hseeds. revert db.
  induction Hseeds as [|p seeds [Ht Hb] _ IH]; intros db Hdb.
  - by intros [= <-].
  - cbn [insert_seeds]. unfold mbind, result_bind.
    destruct (Sql.insert db (Some p.1) (Some p.2) now now) as [db1|] eqn:E;
      [|done].
    apply IH. by apply (fields_trimmed_insert db db1 p.1 p.2 now now).
Qed.

Lemma fields_trimmed_init_db (db db' : DB) (now : str) :
  fields_trimmed db -> init_db db now = Ok db' -> fields_trimmed db'.
Proof.
  unfold init_db. intros Hdb. destruct (Sql.count db =? 0).
  - apply (fields_trimmed_seeds seed_posts); [|done].
    repeat constructor; by vm_compute.
  - by intros [= <-].
Qed.

Lemma fields_trimmed_handle (db : DB) (now : str) (req : Request) :
  fields_trimmed db ->
  fields_trimmed (handle render_template markdown_markdown db now req).1.
Proof.
  intros Hdb.
  destruct (handle_store_form db now req)
    as [-> | [(form & Hins) | [(form & p & Hupd) | [p ->]]]].
  - done.
  - eapply fields_trimmed_insert; [| |exact Hdb|exact Hins];
      apply strip_idempotent.
  - injection Hupd as <-. unfold fields_trimmed in *. cbn [posts].
    induction Hdb as [|r l Hr _ IH]; cbn [map]; constructor; [|done].
    unfold Sql.set_fields. destruct (id r =? p); [|done].
    cbn. split; apply strip_idempotent.
  - unfold fields_trimmed in *. cbn [Sql.delete posts].
    apply Forall_forall. intros r [_ Hr]%list_elem_of_filter.
    by apply (proj1 (Forall_forall _ _) Hdb).
Qed.




End RowFacts.

(** X12.  In every state that the application reaches, every stored title
    and every stored body is trimmed: it is equal to its own [strip()], so
    it neither starts nor ends with white space. *)
Theorem reachable_fields_trimmed
  (render_template : Template -> str) (markdown_markdown : str -> str)
  (db : DB) :
  reachable render_template markdown_markdown db -> fields_trimmed db.
Proof.
  induction 1 as [now db Hinit | db now req _ IH | db now db' _ IH Hinit].
  - apply (fields_trimmed_init_db empty_db db now); [constructor | done].
  - by apply fields_trimmed_handle.
  - by apply (fields_trimmed_init_db db db' now).
Qed.

Lemma reachable_fields_trimmed_witness :
  let rt : Template -> str := fun _ => [] in
  let md : str -> str := fun text => text in
  let now := lit "2026-01-01T00:00:00" in
  let form : Form :=
    {[ lit "title" := lit "  Hello "; lit "body" := lit " World  " ]} in
  let seeded :=
    match init_db empty_db now with Ok db => db | Raise _ => empty_db end in
  let db := (handle rt md seeded now (POST_posts form)).1 in
  Sql.select_by_id db 4
  = Some {| id := 4; title := lit "Hello"; body := lit "World";
            created_at := now; updated_at := now |}
  /\ fields_trimmed db.
Proof.
  intros rt md now form seeded db. split; [by vm_compute|].
  apply (reachable_fields_trimmed rt md).
  apply reachable_request. apply (reachable_new rt md now). by vm_compute.
Defined.



(** ** How requests compose *)

Section ComposeFacts.

Import Sql.

Lemma set_fields_twice (t1 b1 u1 t2 b2 u2 : str) (post_id : Z) (r : Row) :
  set_fields t2 b2 u2 post_id (set_fields t1 b1 u1 post_id r)
  = set_fields t2 b2 u2 post_id r.
Proof.
  unfold set_fields. destruct (id r =? post_id) eqn:E; cbn; by rewrite E.
Qed.

Lemma find_id_app_other (l : list Row) (r : Row) (q : Z) :
  id r <> q ->
  find (fun r' => id r' =? q) (l ++ [r]) = find (fun r' => id r' =? q) l.
Proof.
  intros Hne%Z.eqb_neq. induction l as [|x l IH]; cbn; [by rewrite Hne|].
  by destruct (id x =? q).
Qed.

Lemma find_id_filter_other (l : list Row) (p q : Z) :
  p <> q ->
  find (fun r => id r =? q) (filter (fun r => id r <> p) l)
  = find (fun r => id r =? q) l.
Proof.
  intros Hne. induction l as [|x l IH]; [done|].
  destruct (decide (id x <> p)).
  - rewrite filter_cons_True by done. cbn. by rewrite IH.
  - rewrite filter_cons_False by done. cbn.
    assert ((id x =? q) = false) as -> by (apply Z.eqb_neq; lia). exact IH.
Qed.

Lemma find_id_set_fields_other (l : list Row) (t b u : str) (p q : Z) :
  p <> q ->
  find (fun r => id r =? q) (map (set_fields t b u p) l)
  = find (fun r => id r =? q) l.
Proof.
  intros Hne. rewrite find_id_set_fields.
  destruct (find (fun r => id r =? q) l) as [r|] eqn:Hfind; [|done].
  apply find_id_some in Hfind as [_ Hid]. cbn. unfold set_fields.
  assert ((id r =? p) = false) as -> by (apply Z.eqb_neq; lia). done.
Qed.

End ComposeFacts.

(** The store that an Update leaves, whether or not the id is stored. *)
Lemma update_post_store
  (render_template : Template -> str) (markdown_markdown : str -> str)
  (db : DB) (now : str) (post_id : Z) (form : Form) :
  stripped_title form <> [] -> stripped_body form <> [] ->
  (update_post render_template markdown_markdown db now post_id form).1
  = {| posts := map (Sql.set_fields (stripped_title form) (stripped_body form)
                       now post_id) (posts db);
       sqlite_sequence := sqlite_sequence db |}.
Proof.
  intros Ht Hb.
  destruct (update_post_accepts render_template markdown_markdown
              db now post_id form Ht Hb) as (db' & Hupd & ->).
  injection Hupd as <-. by destruct (Sql.select_by_id _ post_id).
Qed.

(** X14.  The last write wins: an Update of an id that follows another
    Update of the same id (accepted or not) gives the store and the answer
    that it would give without the earlier one, when its own fields pass
    validation. *)
Theorem update_last_write_wins
  (render_template : Template -> str) (markdown_markdown : str -> str)
  (db : DB) (now1 now2 : str) (post_id : Z) (form1 form2 : Form) :
  stripped_title form2 <> [] ->
  stripped_body form2 <> [] ->
  update_post render_template markdown_markdown
    (update_post render_template markdown_markdown db now1 post_id form1).1
    now2 post_id form2
  = update_post render_template markdown_markdown db now2 post_id form2.
Proof.
  intros Ht Hb. validation_cases form1.
  - by rewrite (update_post_rejects render_template markdown_markdown
                  db now1 post_id form1).
  - rewrite (update_post_store render_template markdown_markdown
               db now1 post_id form1) by done.
    destruct (update_post_accepts render_template markdown_markdown
                db now2 post_id form2 Ht Hb) as (db2 & Hupd2 & ->).
    destruct (update_post_accepts render_template markdown_markdown
                {| posts := map (Sql.set_fields (stripped_title form1)
                                   (stripped_body form1) now1 post_id)
                              (posts db);
                   sqlite_sequence := sqlite_sequence db |}
                now2 post_id form2 Ht Hb) as (db2' & Hupd2' & ->).
    injection Hupd2 as <-. injection Hupd2' as <-. cbn [posts sqlite_sequence].
    rewrite map_map.
    rewrite (map_ext _ (Sql.set_fields (stripped_title form2)
                          (stripped_body form2) now2 post_id)); [done|].
    intros r. apply set_fields_twice.
Qed.

Lemma update_last_write_wins_witness :
  let rt : Template -> str := fun _ => [] in
  let md : str -> str := fun text => text in
  let stamp := lit "2026-01-01T00:00:00" in
  let db := {| posts := [ {| id := 1; title := lit "Hello";
                             body := lit "World";
                             created_at := stamp; updated_at := stamp |} ];
               sqlite_sequence := 1 |} in
  let form1 : Form := {[ lit "title" := lit "First"; lit "body" := lit "one" ]} in
  let form2 : Form := {[ lit "title" := lit "Second"; lit "body" := lit "two" ]} in
  update_post rt md
    (update_post rt md db (lit "2026-01-02T00:00:00") 1 form1).1
    (lit "2026-01-03T00:00:00") 1 form2
  = update_post rt md db (lit "2026-01-03T00:00:00") 1 form2.
Proof. apply update_last_write_wins; by vm_compute. Defined.

(** X15.  A request touches one post at most.  For an id other than the
    one that the request writes (the fresh id of a Create, the id in the
    path of an Update or a Delete), the lookup of that id gives the same
    row, or the same absence, after the request as before it, and so Show
    single, Show edit form and the Confirm-delete prompt for it give the
    same answers. *)
Theorem other_posts_untouched
  (render_template : Template -> str) (markdown_markdown : str -> str)
  (db : DB) (now : str) (req : Request) (q : Z) :
  written_id db req <> Some q ->
  let db' := (handle render_template markdown_markdown db now req).1 in
  Sql.select_by_id db' q = Sql.select_by_id db q
  /\ (view_post render_template markdown_markdown db' q).2
     = (view_post render_template markdown_markdown db q).2
  /\ (edit_post render_template db' q).2 = (edit_post render_template db q).2
  /\ (confirm_delete render_template db' q).2
     = (confirm_delete render_template db q).2.
Proof.
  intros Hq. cbn zeta.
  assert (Sql.select_by_id
            (handle render_template markdown_markdown db now req).1 q
          = Sql.select_by_id db q) as Hsel.
  { destruct req as [| |form|post_id|post_id|post_id form|post_id|post_id];
      cbn [handle written_id] in *.
    - done.
    - done.
    - validation_cases form.
      + by rewrite (create_post_rejects render_template db now form).
      + destruct (create_post_accepts render_template db now form)
          as (db' & Hins & ->); [done..|].
        injection Hins as <-. unfold Sql.select_by_id. cbn [fst posts].
        apply find_id_app_other. cbn. congruence.
    - unfold view_post. by destruct (Sql.select_by_id db post_id).
    - unfold edit_post. by destruct (Sql.select_by_id db post_id).
    - validation_cases form.
      + by rewrite (update_post_rejects render_template markdown_markdown
                      db now post_id form).
      + rewrite update_post_store by done. unfold Sql.select_by_id.
        cbn [posts]. apply find_id_set_fields_other. congruence.
    - rewrite delete_post_eq. unfold Sql.select_by_id. cbn [fst Sql.delete posts].
      apply find_id_filter_other. congruence.
    - unfold confirm_delete. by destruct (Sql.select_by_id db post_id). }
  split; [exact Hsel|].
  unfold view_post, edit_post, confirm_delete. rewrite Hsel.
  by destruct (Sql.select_by_id db q).
Qed.

Lemma other_posts_untouched_witness :
  let rt : Template -> str := fun _ => [] in
  let md : str -> str := fun text => text in
  let now := lit "2026-01-01T00:00:00" in
  let seeded :=
    match init_db empty_db now with Ok db => db | Raise _ => empty_db end in
  let db' := (handle rt md seeded now (DELETE_post 2)).1 in
  Sql.select_by_id db' 3 = Sql.select_by_id seeded 3
  /\ (view_post rt md db' 3).2 = (view_post rt md seeded 3).2
  /\ (edit_post rt db' 3).2 = (edit_post rt seeded 3).2
  /\ (confirm_delete rt db' 3).2 = (confirm_delete rt seeded 3).2.
Proof. by apply other_posts_untouched. Defined.

(** X16.  After a successful Update of a stored post, its pages show what
    was written: Show single renders the post with the trimmed title and
    the Markdown of the trimmed body, Show edit form is filled with that
    same post, and the Confirm-delete prompt names it; its id and
    created_at are those it had. *)
Theorem update_then_pages
  (render_template : Template -> str) (markdown_markdown : str -> str)
  (db : DB) (now : str) (post_id : Z) (form : Form) (old : Row) :
  Sql.select_by_id db post_id = Some old ->
  stripped_title form <> [] ->
  stripped_body form <> [] ->
  let db' :=
    (update_post render_template markdown_markdown db now post_id form).1 in
  let new := {| id := id old; title := stripped_title form;
                body := stripped_body form;
                created_at := created_at old; updated_at := now |} in
  view_post render_template markdown_markdown db' post_id
  = (db', Ok (make_response
                (render_template
                   (Post_html new (markdown_markdown (stripped_body form))))))
  /\ edit_post render_template db' post_id
     = (db', Ok (make_response (render_template (Post_form_html (Some new)))))
  /\ confirm_delete render_template db' post_id
     = (db', Ok (make_response (render_template (Confirm_delete_html new)))).
Proof.
  intros Hold Ht Hb. cbn zeta.
  rewrite update_post_store by done.
  destruct (find_id_some _ _ _ Hold) as [_ Hid].
  unfold view_post, edit_post, confirm_delete, Sql.select_by_id in *.
  cbn [posts]. rewrite find_id_set_fields, Hold. cbn.
  unfold Sql.set_fields. apply Z.eqb_eq in Hid. by rewrite Hid.
Qed.

Lemma update_then_pages_witness :
  let rt : Template -> str := fun _ => [] in
  let md : str -> str := fun text => text in
  let stamp := lit "2026-01-01T00:00:00" in
  let now := lit "2026-01-02T00:00:00" in
  let old := {| id := 1; title := lit "Hello"; body := lit "World";
                created_at := stamp; updated_at := stamp |} in
  let db := {| posts := [old]; sqlite_sequence := 1 |} in
  let form : Form := {[ lit "title" := lit " Hi "; lit "body" := lit "*There*" ]} in
  let db' := (update_post rt md db now 1 form).1 in
  let new := {| id := 1; title := lit "Hi"; body := lit "*There*";
                created_at := stamp; updated_at := now |} in
  view_post rt md db' 1
  = (db', Ok (make_response (rt (Post_html new (md (lit "*There*"))))))
  /\ edit_post rt db' 1
     = (db', Ok (make_response (rt (Post_form_html (Some new)))))
  /\ confirm_delete rt db' 1
     = (db', Ok (make_response (rt (Confirm_delete_html new)))).
Proof.
  intros rt md stamp now old db form db' new.
  apply (update_then_pages rt md db now 1 form old); by vm_compute.
Defined.

(** ** The preview *)

Section PreviewFacts.

Import PyStr.

(** The text that the preview is cut from. *)
Lemma get_post_preview_eq (body : str) (max_length : Z) :
  get_post_preview body max_length
  = let plain := join (lit " ") (split (Spec.strip_markers body)) in
    if len plain >? max_length
    then slice_to plain max_length ++ lit "..."
    else plain.
Proof. unfold get_post_preview. by rewrite replace_chain_strip_markers. Qed.

Lemma join_cons_cons (sep : str) (c : N) (w : str) (ws : list str) :
  join sep ((c :: w) :: ws) = c :: join sep (w :: ws).
Proof. cbn [join]. by destruct ws. Qed.

(** The first word of a split starts with a character that is not white
    space. *)
Lemma split_head (s w : str) (ws : list str) :
  split s = w :: ws -> exists d w', w = d :: w' /\ isspace d = false.
Proof.
  induction s as [|c s IH]; [done|]. rewrite split_cons.
  destruct (isspace c) eqn:Hc; [exact IH|].
  destruct (split s) as [|w0 ws0]; [intros [= <- <-]; eauto|].
  destruct (starts_with_space s); intros [= <- <-]; eauto.
Qed.

Lemma join_split_head (s w : str) (ws : list str) :
  split s = w :: ws ->
  exists d t, join (lit " ") (split s) = d :: t /\ isspace d = false.
Proof.
  intros Hsplit. rewrite Hsplit.
  destruct (split_head s w ws Hsplit) as (d & w' & -> & Hd).
  rewrite join_cons_cons. eauto.
Qed.

(** One step of collapsing, read from the front of the text. *)
Lemma join_split_cons (c : N) (s : str) :
  join (lit " ") (split (c :: s))
  = if isspace c then join (lit " ") (split s)
    else match split s with
         | [] => [c]
         | _ :: _ =>
             if starts_with_space s
             then c :: 0x20%N :: join (lit " ") (split s)
             else c :: join (lit " ") (split s)
         end.
Proof.
  rewrite split_cons. destruct (isspace c); [done|].
  destruct (split s) as [|w ws]; [done|].
  destruct (starts_with_space s); [done|]. apply join_cons_cons.
Qed.

Lemma join_split_nil (s : str) :
  join (lit " ") (split s) = [] <-> split s = [].
Proof.
  split; [|by intros ->].
  destruct (split s) as [|w ws] eqn:Hsplit; [done|].
  destruct (join_split_head s w ws Hsplit) as (d & t & Hj & _).
  rewrite Hsplit in Hj. by rewrite Hj.
Qed.

Lemma join_split_starts (s : str) :
  starts_with_space (join (lit " ") (split s)) = false.
Proof.
  destruct (split s) as [|w ws] eqn:Hsplit; [done|].
  destruct (join_split_head s w ws Hsplit) as (d & t & Hj & Hd).
  rewrite Hsplit in Hj. by rewrite Hj.
Qed.

Lemma join_split_single_spaced (s : str) :
  single_spaced (join (lit " ") (split s)) = true.
Proof.
  induction s as [|c s IH]; [done|]. rewrite join_split_cons.
  destruct (isspace c) eqn:Hc; [exact IH|].
  destruct (split s) as [|w ws] eqn:Hsplit; [cbn; by rewrite Hc|].
  rewrite <- Hsplit in *.
  destruct (join_split_head s w ws Hsplit) as (d & t & Hj & Hd).
  destruct (starts_with_space s).
  - cbn [single_spaced]. rewrite Hc. change (isspace 32) with true.
    cbn iota. rewrite IH, Hj. cbn. by rewrite Hd.
  - cbn [single_spaced]. by rewrite Hc.
Qed.

Lemma join_split_forallb (f : N -> bool) (s : str) :
  f 0x20%N = true -> forallb f s = true ->
  forallb f (join (lit " ") (split s)) = true.
Proof.
  intros Hsp. induction s as [|c s IH]; [done|]. rewrite join_split_cons.
  cbn [forallb]. intros [Hc Hs]%andb_true_iff.
  destruct (isspace c); [by apply IH|].
  destruct (split s) as [|w ws] eqn:Hsplit; [cbn; by rewrite Hc|].
  rewrite <- Hsplit in *.
  destruct (starts_with_space s); cbn [forallb]; rewrite Hc, ?Hsp, IH; done.
Qed.

(** Collapsing never makes a text longer. *)
Lemma join_split_length (s : str) :
  (length (join (lit " ") (split s))
   + (if starts_with_space s then 1 else 0) <= length s)%nat.
Proof.
  induction s as [|c s IH]; [done|]. rewrite join_split_cons.
  cbn [starts_with_space length].
  destruct (isspace c); [destruct (starts_with_space s); lia|].
  destruct (split s) as [|w ws] eqn:Hsplit; [cbn; lia|].
  rewrite <- Hsplit in *.
  destruct (starts_with_space s); cbn [length]; lia.
Qed.

Lemma strip_markers_forallb (s : str) :
  forallb (fun c => negb (Spec.is_marker c)) (Spec.strip_markers s) = true.
Proof.
  unfold Spec.strip_markers. induction s as [|c s IH]; [done|]. cbn.
  destruct (Spec.is_marker c) eqn:E; cbn; [done|]. by rewrite E.
Qed.

Lemma strip_markers_fixed (s : str) :
  forallb (fun c => negb (Spec.is_marker c)) s = true ->
  Spec.strip_markers s = s.
Proof.
  unfold Spec.strip_markers. induction s as [|c s IH]; [done|]. cbn.
  intros [Hc Hs]%andb_true_iff. by rewrite Hc, IH.
Qed.

(** The collapsed text is plain text. *)
Lemma collapsed_plain_text (body : str) :
  plain_text (join (lit " ") (split (Spec.strip_markers body))) = true.
Proof.
  unfold plain_text.
  rewrite join_split_starts, join_split_single_spaced, join_split_forallb;
    [done | done | apply strip_markers_forallb].
Qed.

(** A prefix of plain text followed by the ellipsis is plain text. *)
Lemma single_spaced_cut (s t : str) (k : nat) :
  single_spaced s = true -> single_spaced t = true ->
  is_empty t = false -> starts_with_space t = false ->
  single_spaced (take k s ++ t) = true.
Proof.
  intros Hs Ht Hne Hst. revert k Hs.
  induction s as [|c s IH]; intros k Hs; [by rewrite take_nil|].
  destruct k as [|k]; [done|]. cbn [take app single_spaced] in *.
  destruct (isspace c); [|by apply IH].
  apply andb_true_iff in Hs as [Hs Hss].
  apply andb_true_iff in Hs as [Hs Hstart].
  apply andb_true_iff in Hs as [Hc _].
  rewrite Hc, IH by done. cbn [andb].
  destruct s as [|d s]; [by rewrite take_nil; cbn; rewrite Hne, Hst|].
  destruct k as [|k]; [cbn; by rewrite Hne, Hst|].
  cbn in *. by rewrite Hstart.
Qed.

Lemma plain_text_cut (s : str) (k : nat) :
  plain_text s = true -> plain_text (take k s ++ lit "...") = true.
Proof.
  unfold plain_text. intros [[Hst Hss]%andb_true_iff Hm]%andb_true_iff.
  rewrite single_spaced_cut by done.
  rewrite forallb_app. change (forallb _ (lit "...")) with true.
  rewrite andb_true_r.
  assert (starts_with_space (take k s ++ lit "...") = false) as ->.
  { destruct s as [|c s]; [by rewrite take_nil|]. destruct k; [done|].
    cbn in *. by destruct (isspace c). }
  cbn [negb andb]. clear Hst Hss. revert k.
  induction s as [|c s IH]; intros k; [by rewrite take_nil|].
  destruct k; [done|]. cbn [take forallb] in *.
  apply andb_true_iff in Hm as [-> Hm]. by apply IH.
Qed.

Lemma slice_to_prefix (s : str) (n : Z) : exists k, slice_to s n = take k s.
Proof. unfold slice_to. eauto. Qed.

(** Plain text is what collapsing leaves alone. *)
Lemma single_spaced_all_space (s : str) :
  single_spaced s = true -> forallb isspace s = true -> s = [].
Proof.
  destruct s as [|c s]; [done|]. cbn [single_spaced forallb].
  intros Hs [Hc Hall]%andb_true_iff. rewrite Hc in Hs.
  apply andb_true_iff in Hs as [Hs _].
  apply andb_true_iff in Hs as [Hs Hstart].
  apply andb_true_iff in Hs as [_ Hne].
  destruct s as [|d s]; [done|]. cbn in *.
  apply andb_true_iff in Hall as [Hd _]. by rewrite Hd in Hstart.
Qed.

Lemma join_split_single_spaced_fixed (s : str) :
  single_spaced s = true -> join (lit " ") (split s) = lstrip s.
Proof.
  induction s as [|c s IH]; [done|]. rewrite join_split_cons.
  cbn [single_spaced lstrip]. destruct (isspace c) eqn:Hc.
  - intros Hs. apply andb_true_iff in Hs as [_ Hs]. by apply IH.
  - intros Hs. specialize (IH Hs).
    destruct (split s) as [|w ws] eqn:Hsplit.
    + apply split_nil_iff in Hsplit.
      by rewrite (single_spaced_all_space s Hs Hsplit).
    + rewrite <- Hsplit in *. rewrite IH.
      destruct s as [|d s]; [done|]. cbn [starts_with_space lstrip].
      destruct (isspace d) eqn:Hd; [|done].
      cbn [single_spaced] in Hs. rewrite Hd in Hs.
      apply andb_true_iff in Hs as [Hs _].
      apply andb_true_iff in Hs as [Hs Hstart].
      apply andb_true_iff in Hs as [Hd32 _].
      apply N.eqb_eq in Hd32 as ->.
      rewrite lstrip_no_space; [done|]. by destruct (starts_with_space s).
Qed.

Lemma plain_text_fixed (s : str) :
  plain_text s = true ->
  join (lit " ") (split (Spec.strip_markers s)) = s.
Proof.
  unfold plain_text. intros [[Hst Hss]%andb_true_iff Hm]%andb_true_iff.
  rewrite strip_markers_fixed by done.
  rewrite join_split_single_spaced_fixed by done.
  apply lstrip_no_space. by destruct (starts_with_space s).
Qed.

Lemma strip_markers_all_space (s : str) :
  forallb isspace (Spec.strip_markers s)
  = forallb (fun c => Spec.is_marker c || isspace c) s.
Proof.
  unfold Spec.strip_markers. induction s as [|c s IH]; [done|]. cbn.
  destruct (Spec.is_marker c); cbn; by rewrite IH.
Qed.

End PreviewFacts.

Lemma plain_text_chars (s : str) :
  plain_text s = true ->
  Forall (fun c => Spec.is_marker c = false
                   /\ (PyStr.isspace c = true -> c = 0x20%N)) s.
Proof.
  unfold plain_text. intros [[_ Hss]%andb_true_iff Hm]%andb_true_iff.
  induction s as [|c s IH]; [constructor|].
  cbn [single_spaced forallb] in *.
  apply andb_true_iff in Hm as [Hc Hm].
  destruct (PyStr.isspace c) eqn:Hsp.
  - apply andb_true_iff in Hss as [Hs Hss].
    apply andb_true_iff in Hs as [Hs _].
    apply andb_true_iff in Hs as [Hc32 _].
    constructor; [|by apply IH]. split; [by destruct (Spec.is_marker c)|].
    intros _. by apply N.eqb_eq.
  - constructor; [|by apply IH]. split; [by destruct (Spec.is_marker c)|].
    cbn beta. congruence.
Qed.

(** X17.  Whatever the body and whatever [max_length], the preview is plain
    text: it holds none of the characters ['#'], ['*'], ['`'], ['>'], its
    only white-space character is the space, it does not start with one,
    and each of its spaces stands alone between two other characters. *)
Theorem preview_is_plain_text (body : str) (max_length : Z) :
  plain_text (get_post_preview body max_length) = true
  /\ Forall (fun c => Spec.is_marker c = false
                      /\ (PyStr.isspace c = true -> c = 0x20%N))
       (get_post_preview body max_length).
Proof.
  assert (plain_text (get_post_preview body max_length) = true) as H.
  { rewrite get_post_preview_eq. cbn zeta.
    destruct (PyStr.len _ >? max_length).
    - destruct (slice_to_prefix
                  (PyStr.join (lit " ")
                     (PyStr.split (Spec.strip_markers body))) max_length)
        as [k ->].
      apply plain_text_cut, collapsed_plain_text.
    - apply collapsed_plain_text. }
  split; [exact H | by apply plain_text_chars].
Qed.

(** X18.  The preview is never more than three characters longer than the
    body, and for a [max_length] that is not negative never longer than
    [max_length + 3]; a body of at most [max_length] characters is never
    cut: its preview is its collapsed text, without ellipsis. *)
Theorem preview_length_bound (body : str) (max_length : Z) :
  let plain :=
    PyStr.join (lit " ") (PyStr.split (Spec.strip_markers body)) in
  PyStr.len plain <= PyStr.len body
  /\ PyStr.len (get_post_preview body max_length) <= PyStr.len body + 3
  /\ (0 <= max_length ->
      PyStr.len (get_post_preview body max_length) <= max_length + 3)
  /\ (PyStr.len body <= max_length ->
      get_post_preview body max_length = plain).
Proof.
  intros plain.
  assert (PyStr.len plain <= PyStr.len body) as Hplain.
  { unfold PyStr.len, plain.
    pose proof (join_split_length (Spec.strip_markers body)).
    pose proof (List.filter_length_le
                  (fun c => negb (Spec.is_marker c)) body) as Hf.
    fold (Spec.strip_markers body) in Hf. lia. }
  split; [exact Hplain|].
  rewrite get_post_preview_eq. cbn zeta. fold plain.
  destruct (Z.gtb_spec (PyStr.len plain) max_length) as [Hlong|Hshort].
  - destruct (slice_to_prefix plain max_length) as [k Hk].
    split; [|split].
    + rewrite Hk. unfold PyStr.len in *.
      rewrite length_app, length_take. cbn [length lit]. lia.
    + intros Hmax. rewrite slice_to_take by done. unfold PyStr.len in *.
      rewrite length_app, length_take. cbn [length lit]. lia.
    + lia.
  - split; [lia|]. split; [lia | done].
Qed.

(** X19.  For a [max_length] that is not negative, the preview is empty
    exactly when the body has nothing to show: when each of its characters
    is one of the four markers or white space (the empty body included). *)
Theorem preview_empty_iff (body : str) (max_length : Z) :
  0 <= max_length ->
  get_post_preview body max_length = []
  <-> forallb (fun c => Spec.is_marker c || PyStr.isspace c) body = true.
Proof.
  intros Hmax. rewrite <- strip_markers_all_space, <- split_nil_iff,
    <- join_split_nil, get_post_preview_eq. cbn zeta.
  destruct (Z.gtb_spec
              (PyStr.len (PyStr.join (lit " ")
                            (PyStr.split (Spec.strip_markers body))))
              max_length) as [Hlong|Hshort]; [|done].
  split.
  - intros H. by apply app_eq_nil in H as [_ ?].
  - intros H. rewrite H in Hlong. unfold PyStr.len in Hlong.
    cbn [length] in Hlong. lia.
Qed.

Lemma preview_empty_iff_witness :
  get_post_preview (lit " ## ** > ") 200 = []
  <-> forallb (fun c => Spec.is_marker c || PyStr.isspace c)
        (lit " ## ** > ") = true.
Proof. apply preview_empty_iff. lia. Defined.

(** X20.  For a [max_length] that is not negative, a preview is its own
    preview: summarizing a text that [get_post_preview] returned, with the
    same [max_length], changes nothing (no second ellipsis, no further
    cut). *)
Theorem preview_idempotent (body : str) (max_length : Z) :
  0 <= max_length ->
  get_post_preview (get_post_preview body max_length) max_length
  = get_post_preview body max_length.
Proof.
  intros Hmax.
  pose proof (collapsed_plain_text body) as Hplain.
  rewrite (get_post_preview_eq body). cbn zeta.
  set (plain := PyStr.join (lit " ") (PyStr.split (Spec.strip_markers body)))
    in *.
  destruct (Z.gtb_spec (PyStr.len plain) max_length) as [Hlong|Hshort].
  - rewrite slice_to_take by done.
    rewrite get_post_preview_eq. cbn zeta.
    rewrite plain_text_fixed by by apply plain_text_cut.
    assert (length (take (Z.to_nat max_length) plain) = Z.to_nat max_length)
      as Hlen by (unfold PyStr.len in Hlong; rewrite length_take; lia).
    destruct (Z.gtb_spec
                (PyStr.len (take (Z.to_nat max_length) plain ++ lit "..."))
                max_length) as [_|Hno].
    + rewrite slice_to_take by done.
      by rewrite take_app_length' by done.
    + unfold PyStr.len in Hno. rewrite length_app, Hlen in Hno.
      cbn [length lit] in Hno. lia.
  - rewrite get_post_preview_eq. cbn zeta.
    rewrite plain_text_fixed by done.
    by destruct (Z.gtb_spec (PyStr.len plain) max_length) as [?|_]; [lia|].
Qed.

Lemma preview_idempotent_witness :
  get_post_preview
    (get_post_preview (lit "## Why   HTMX?  > some *quoted* text") 12) 12
  = get_post_preview (lit "## Why   HTMX?  > some *quoted* text") 12.
Proof. apply preview_idempotent. lia. Defined.

(** X21.  A successful Create adds exactly one row and one entry to the
    list: the table is the old table followed by the new row, the count
    grows by one, and the list after the Create without the entry of the
    new id is the list before it, in the same order. *)
Theorem create_adds_one_entry
  (render_template : Template -> str) (db : DB) (now : str) (form : Form) :
  stripped_title form <> [] ->
  stripped_body form <> [] ->
  let db' := (create_post render_template db now form).1 in
  let new := {| id := Sql.next_rowid db; title := stripped_title form;
                body := stripped_body form;
                created_at := now; updated_at := now |} in
  posts db' = posts db ++ [new]
  /\ Sql.count db' = Sql.count db + 1
  /\ with_preview new ∈ posts_with_preview db'
  /\ length (posts_with_preview db') = S (length (posts_with_preview db))
  /\ filter (fun v => pv_id v <> Sql.next_rowid db) (posts_with_preview db')
     = posts_with_preview db.
Proof.
  intros Ht Hb.
  destruct (create_post_accepts render_template db now form Ht Hb)
    as (db' & Hins & ->).
  injection Hins as <-. cbn zeta. cbn [fst posts].
  split; [done|]. split.
  { unfold Sql.count. cbn [posts]. rewrite length_app. cbn [length]. lia. }
  unfold posts_with_preview, Sql.select_order_by_created_at_desc.
  cbn [posts]. split; [|split].
  - apply list_elem_of_In, in_map, list_elem_of_In.
    rewrite sorter_perm. apply elem_of_app. right. by left.
  - rewrite !length_map, !sorter_perm, length_app. cbn [length]. lia.
  - rewrite <- with_preview_filter, <- sorter_filter, filter_app.
    rewrite filter_cons_False by (cbn; tauto).
    rewrite filter_nil, app_nil_r, filter_keeps_all; [done|].
    apply Forall_forall. intros r Hr%next_rowid_fresh. lia.
Qed.

Lemma create_adds_one_entry_witness :
  let rt : Template -> str := fun _ => [] in
  let stamp := lit "2026-01-02T09:00:00" in
  let db := {| posts := [ {| id := 1; title := lit "Welcome";
                             body := lit "# Hello";
                             created_at := stamp; updated_at := stamp |} ];
               sqlite_sequence := 1 |} in
  let now := lit "2026-01-01T00:00:00" in
  let form : Form := {[ lit "title" := lit "Older"; lit "body" := lit "*News*" ]} in
  let db' := (create_post rt db now form).1 in
  let new := {| id := 2; title := lit "Older"; body := lit "*News*";
                created_at := now; updated_at := now |} in
  map pv_id (posts_with_preview db') = [1; 2]
  /\ posts db' = posts db ++ [new]
  /\ Sql.count db' = Sql.count db + 1
  /\ with_preview new ∈ posts_with_preview db'
  /\ length (posts_with_preview db') = S (length (posts_with_preview db))
  /\ filter (fun v => pv_id v <> 2) (posts_with_preview db')
     = posts_with_preview db.
Proof.
  intros rt stamp db now form db' new. split; [by vm_compute|].
  apply (create_adds_one_entry rt db now form); by vm_compute.
Defined.
